(** * nodevers: the version registry and the activation link

    A shallow embedding of [nodevers/shared.py] and [nodevers/remove.py].

    Python values are modelled as follows.
    - [str] (Python 2 byte strings) is [string]; [os.path.join] is the
      [posixpath] function on strings.
    - The regular expressions of the source are kept as the pattern strings
      the source writes; [re_compile] reads the fragment of the [re] syntax
      they use and [re_match] is a backtracking matcher with Python's
      meaning of [^], [$], [\d] and greedy [+].
    - The functions that touch the operating system run in the monad [M]:
      a state monad over a [world] (file system, environment, executables
      on the search path, the two output streams and a log of the system
      calls made) with Python exceptions as the second outcome.
    - The file system is a finite map from normalised paths to nodes.
      Paths are normalised lexically ([.] and empty components are
      dropped, [..] goes up); a symbolic link is followed when it is the
      last component of a path ([os.path.isdir], [os.path.exists],
      [os.listdir]), and the directories on the way to it are real
      directories.  Permissions and device errors are not modelled.
    - A child process is what [programs] says it prints: the world
      records, for a command line, the two streams or that it cannot be
      executed. *)

From Stdlib Require Import Ascii String.
From stdpp Require Import gmap strings list fin_maps.

Local Open Scope char_scope.

(** ** Python strings *)

Module Str.

Definition LF : ascii := "010".

Definition is_digit (c : ascii) : bool :=
  match c with
  | "0" | "1" | "2" | "3" | "4" | "5" | "6" | "7" | "8" | "9" => true
  | _ => false
  end.

(** [s.startswith(c)] for a one-character [c]. *)
Definition startswith (c : ascii) (s : string) : bool :=
  match s with
  | String c' _ => bool_decide (c' = c)
  | EmptyString => false
  end.

(** [s.endswith(c)] for a one-character [c]. *)
Fixpoint endswith (c : ascii) (s : string) : bool :=
  match s with
  | EmptyString => false
  | String c' EmptyString => bool_decide (c' = c)
  | String _ s' => endswith c s'
  end.

(** [o.startswith(p)] for strings. *)
Fixpoint has_prefix (p o : string) : bool :=
  match p, o with
  | EmptyString, _ => true
  | String a p', String b o' => bool_decide (a = b) && has_prefix p' o'
  | String _ _, EmptyString => false
  end.

(** [s] without its prefix [p], when it starts with [p]. *)
Fixpoint strip_prefix (p s : string) : option string :=
  match p, s with
  | EmptyString, _ => Some s
  | String a p', String b s' =>
      if bool_decide (a = b) then strip_prefix p' s' else None
  | String _ _, EmptyString => None
  end.

(** All characters of [s] satisfy [f]. *)
Fixpoint all (f : ascii → bool) (s : string) : bool :=
  match s with
  | EmptyString => true
  | String c s' => f c && all f s'
  end.

(** The slice [s[i:j]]. *)
Definition slice (i j : nat) (s : string) : string :=
  String.substring i (j - i) s.

End Str.

(** ** The [re] module, for the patterns of the source *)

Module Re.

(** What matches one character. *)
Inductive atom :=
| Lit (c : ascii)          (* an ordinary or an escaped character *)
| Digit                    (* \d, which is [0-9] on Python 2 str *)
| OneOf (cs : list ascii). (* [...] *)

(** A pattern without alternation is a sequence of items. *)
Inductive item :=
| Bol                      (* ^ *)
| Eol                      (* $ *)
| One (a : atom)
| Plus (a : atom)          (* a+ , greedy *)
| Open                     (* ( *)
| Close.                   (* ) *)

Definition atom_ok (a : atom) (c : ascii) : bool :=
  match a with
  | Lit c' => bool_decide (c = c')
  | Digit => Str.is_digit c
  | OneOf cs => bool_decide (c ∈ cs)
  end.

(** Reading a pattern.  [read_set] reads the inside of [[...]] up to the
    closing bracket. *)
Fixpoint read_set (s : string) : option (list ascii * string) :=
  match s with
  | EmptyString => None
  | String "]" s' => Some ([], s')
  | String c s' =>
      match read_set s' with
      | Some (cs, r) => Some (c :: cs, r)
      | None => None
      end
  end.

Definition quantify (a : atom) (s : string) : item * string :=
  match s with
  | String "+" s' => (Plus a, s')
  | _ => (One a, s)
  end.

Fixpoint read (fuel : nat) (s : string) : option (list item) :=
  match fuel with
  | O => None
  | S fuel =>
      let after a r :=
        let '(i, r') := quantify a r in
        cons i <$> read fuel r' in
      match s with
      | EmptyString => Some []
      | String "^" r => cons Bol <$> read fuel r
      | String "$" r => cons Eol <$> read fuel r
      | String "(" r => cons Open <$> read fuel r
      | String ")" r => cons Close <$> read fuel r
      | String "\" (String "d" r) => after Digit r
      | String "\" (String c r) =>
          if Str.is_digit c || bool_decide (c ∈ ["A"; "b"; "B"; "D"; "s"; "S"; "w"; "W"; "Z"])
          then None else after (Lit c) r
      | String "\" EmptyString => None
      | String "[" r =>
          match read_set r with
          | Some (cs, r') => after (OneOf cs) r'
          | None => None
          end
      | String "+" _ | String "*" _ | String "?" _ | String "|" _
      | String "{" _ | String "." _ => None
      | String c r => after (Lit c) r
      end
  end.

Definition re_compile (pattern : string) : option (list item) :=
  read (S (String.length pattern)) pattern.

(** The greedy loop of [a+]: take one more character first, and give
    the rest of the pattern a try only when that fails. *)
Fixpoint plus_loop (a : atom) (k : nat → string → option (list nat))
    (pos : nat) (s : string) : option (list nat) :=
  match s with
  | String c s' =>
      if atom_ok a c then
        match plus_loop a k (S pos) s' with
        | Some r => Some r
        | None => k (S pos) s'
        end
      else None
  | EmptyString => None
  end.

(** [run items pos s] matches [items] against [s], the part of the
    subject that starts at offset [pos]; it returns the offsets at which
    the parentheses were passed, in pattern order, followed by the
    offset of the end of the match. *)
Fixpoint run (items : list item) (pos : nat) (s : string) : option (list nat) :=
  match items with
  | [] => Some [pos]
  | Bol :: items' => if bool_decide (pos = 0) then run items' pos s else None
  | Eol :: items' =>
      (* the end of the string, or just before a newline that ends it *)
      match s with
      | EmptyString | String "010" EmptyString => run items' pos s
      | _ => None
      end
  | Open :: items' | Close :: items' => cons pos <$> run items' pos s
  | One a :: items' =>
      match s with
      | String c s' => if atom_ok a c then run items' (S pos) s' else None
      | EmptyString => None
      end
  | Plus a :: items' => plus_loop a (run items') pos s
  end.

(** A match object: the subject and the offsets of the parentheses. *)
Record match_object := { subject : string; marks : list nat }.

(** [re.match(pattern, s)]; [None] is Python's [None]. *)
Definition re_match (pattern s : string) : option match_object :=
  items ← re_compile pattern;
  ms ← run items 0 s;
  Some {| subject := s; marks := ms |}.

(** [m.group(n)] for [n >= 1], in a pattern whose groups are not nested. *)
Definition group (m : match_object) (n : nat) : option string :=
  i ← marks m !! (2 * (n - 1));
  j ← marks m !! (2 * (n - 1) + 1);
  Some (Str.slice i j (subject m)).

End Re.

Global Arguments Re.re_match : simpl never.
Global Arguments Re.group : simpl never.


Local Close Scope char_scope.

(** ** [posixpath]: joining and normalising paths *)

Module Path.

(** [os.path.join(a, b)] of Python 2's [posixpath]. *)
Definition join (a b : string) : string :=
  if Str.startswith "/" b then b
  else if bool_decide (a = "") || Str.endswith "/" a then a +:+ b
  else a +:+ "/" +:+ b.

(** The pieces of [s] between its slashes. *)
Fixpoint split_slash (s : string) : list string :=
  match s with
  | EmptyString => [""]
  | String c s' =>
      if bool_decide (c = "/"%char) then "" :: split_slash s'
      else match split_slash s' with
           | h :: t => String c h :: t
           | [] => [String c ""]
           end
  end.

(** One step of a walk: empty pieces and [.] stay, [..] goes up. *)
Definition step (at_ : list string) (name : string) : list string :=
  if bool_decide (name = "") || bool_decide (name = ".") then at_
  else if bool_decide (name = "..") then removelast at_
  else at_ ++ [name].

Definition walk (from : list string) (names : list string) : list string :=
  fold_left step names from.

(** The normalised absolute path that [p] names in directory [cwd]. *)
Definition resolve (cwd : list string) (p : string) : list string :=
  walk (if Str.startswith "/" p then [] else cwd) (split_slash p).

Definition parent (k : list string) : list string := removelast k.

(** The last component of [p], trailing slashes apart: the name the
    kernel looks at when the entry itself is to be removed.  It is empty
    when [p] has no component. *)
Definition last_name (p : string) : string :=
  default "" (last (filter (λ n, n ≠ "") (split_slash p))).

(** [p] ends in [.] or in [..]. *)
Definition ends_in_dot (p : string) : bool :=
  bool_decide (last_name p = ".") || bool_decide (last_name p = "..").

End Path.

(** ** The world a command runs in *)

Abbreviation path := (list string).

Inductive node :=
| File
| Dir
| Link (target : string).

Global Instance node_eq_dec : EqDecision node.
Proof. solve_decision. Defined.

(** What a child process wrote on its two streams. *)
Record process_output := { out_stream : string; err_stream : string }.

(** The system calls a command makes, in the order it makes them. *)
Inductive call :=
| Isdir (p : string)
| Exists (p : string)
| Lexists (p : string)
| Listdir (p : string)
| Unlink (p : string)
| Symlink (src dst : string)
| Rmtree (p : string)
| Makedirs (p : string)
| Popen (argv : list string).

Global Instance call_eq_dec : EqDecision call.
Proof. solve_decision. Defined.

(** The calls that change the file system. *)
Definition mutates (c : call) : bool :=
  match c with
  | Unlink _ | Symlink _ _ | Rmtree _ | Makedirs _ => true
  | _ => false
  end.

Record world := {
  fs : gmap path node;
  cwd : path;
  environ : gmap string string;
  euid : nat;
  (** what running a command line gives; [None]: it cannot be executed *)
  programs : list string → option process_output;
  stdout : string;
  stderr : string;
  calls : list call;
}.

Definition set_fs (m : gmap path node) (w : world) : world :=
  {| fs := m; cwd := cwd w; environ := environ w; euid := euid w;
     programs := programs w; stdout := stdout w; stderr := stderr w;
     calls := calls w |}.

Definition log (c : call) (w : world) : world :=
  {| fs := fs w; cwd := cwd w; environ := environ w; euid := euid w;
     programs := programs w; stdout := stdout w; stderr := stderr w;
     calls := calls w ++ [c] |}.

Definition put_stdout (s : string) (w : world) : world :=
  {| fs := fs w; cwd := cwd w; environ := environ w; euid := euid w;
     programs := programs w; stdout := stdout w +:+ s; stderr := stderr w;
     calls := calls w |}.

Definition put_stderr (s : string) (w : world) : world :=
  {| fs := fs w; cwd := cwd w; environ := environ w; euid := euid w;
     programs := programs w; stdout := stdout w; stderr := stderr w +:+ s;
     calls := calls w |}.

(** ** Python exceptions and the monad of commands *)

Inductive exn :=
| OSError
| AttributeError
| MissingToolError (msg : string)
| NoSuchVersionError (msg : string)
| SystemExit (code : Z).

Inductive outcome (A : Type) :=
| Ret (a : A)
| Raise (e : exn).
Arguments Ret {A} a.
Arguments Raise {A} e.

Definition M (A : Type) : Type := world → outcome A * world.

Global Instance M_ret : MRet M := λ A a w, (Ret a, w).

Global Instance M_bind : MBind M := λ A B f m w,
  match m w with
  | (Ret a, w') => f a w'
  | (Raise e, w') => (Raise e, w')
  end.

Definition raise {A} (e : exn) : M A := λ w, (Raise e, w).

(** [try: body except OSError: handler] *)
Definition except_OSError {A} (body handler : M A) : M A := λ w,
  match body w with
  | (Raise OSError, w') => handler w'
  | r => r
  end.

(** ** The file system *)

Module FS.

(** What is at [k], without following a link there.  The root is
    always a directory. *)
Definition lstat (m : gmap path node) (k : path) : option node :=
  match k with
  | [] => Some Dir
  | _ => m !! k
  end.

(** What is at [k] after following the links there, and where; at most
    [fuel] links are followed. *)
Fixpoint follow (fuel : nat) (m : gmap path node) (k : path) : option (path * node) :=
  match lstat m k with
  | Some (Link t) =>
      match fuel with
      | O => None
      | S fuel' =>
          if bool_decide (t = "") then None
          else follow fuel' m (Path.resolve (Path.parent k) t)
      end
  | Some n => Some (k, n)
  | None => None
  end.

(** The kernel gives up after this many links. *)
Definition MAXSYMLINKS : nat := 40.

Definition stat (m : gmap path node) (k : path) : option (path * node) :=
  follow MAXSYMLINKS m k.

(** The key a path string names; the empty string names nothing. *)
Definition locate (w : world) (p : string) : option path :=
  if bool_decide (p = "") then None else Some (Path.resolve (cwd w) p).

(** [k' = k ++ [name]] *)
Definition child_name (k k' : path) : option string :=
  match last k' with
  | Some name => if bool_decide (k' = k ++ [name]) then Some name else None
  | None => None
  end.

(** The names in directory [k], in the order the map lists them. *)
Definition children (m : gmap path node) (k : path) : list string :=
  omap (λ kn, child_name k kn.1) (map_to_list m).

(** [os.path.isdir(p)], [os.path.exists(p)] and [os.path.lexists(p)] in
    world [w], and what [os.listdir(p)] returns when it returns. *)
Definition isdir (w : world) (p : string) : bool :=
  match locate w p ≫= stat (fs w) with
  | Some (_, Dir) => true
  | _ => false
  end.

Definition exists_ (w : world) (p : string) : bool :=
  match locate w p ≫= stat (fs w) with
  | Some _ => true
  | None => false
  end.

Definition lexists (w : world) (p : string) : bool :=
  match locate w p ≫= lstat (fs w) with
  | Some _ => true
  | None => false
  end.

Definition listing (w : world) (p : string) : option (list string) :=
  match locate w p ≫= stat (fs w) with
  | Some (k, Dir) => Some (children (fs w) k)
  | _ => None
  end.

(** Everything except [k] and what is below it. *)
Definition prune (k : path) (m : gmap path node) : gmap path node :=
  filter (λ kn, ¬ k `prefix_of` kn.1) m.

(** Create the directories [base/n1], [base/n1/n2], ... that are
    missing and the last one, which must be missing.  A failure keeps
    what was created before it. *)
Fixpoint mkdirs (m : gmap path node) (base : path) (names : list string)
    : bool * gmap path node :=
  match names with
  | [] => (false, m)
  | [n] =>
      match lstat m (base ++ [n]) with
      | None => (true, <[base ++ [n] := Dir]> m)
      | Some _ => (false, m)
      end
  | n :: rest =>
      match lstat m (base ++ [n]) with
      | None => mkdirs (<[base ++ [n] := Dir]> m) (base ++ [n]) rest
      | Some Dir => mkdirs m (base ++ [n]) rest
      | Some _ => (false, m)
      end
  end.

End FS.

Global Arguments FS.stat : simpl never.

(** ** The functions of [os], [os.path], [shutil], [subprocess] and [sys] *)

Definition os_getenv (name : string) : M (option string) :=
  λ w, (Ret (environ w !! name), w).

Definition os_geteuid : M nat := λ w, (Ret (euid w), w).

Definition os_path_isdir (p : string) : M bool := λ w,
  (Ret (FS.isdir w p), log (Isdir p) w).

Definition os_path_exists (p : string) : M bool := λ w,
  (Ret (FS.exists_ w p), log (Exists p) w).

Definition os_path_lexists (p : string) : M bool := λ w,
  (Ret (FS.lexists w p), log (Lexists p) w).

Definition os_listdir (p : string) : M (list string) := λ w,
  match FS.listing w p with
  | Some names => (Ret names, log (Listdir p) w)
  | None => (Raise OSError, log (Listdir p) w)
  end.

(** [os.unlink] removes a file or a link, never a directory. *)
Definition os_unlink (p : string) : M unit := λ w,
  let w := log (Unlink p) w in
  match FS.locate w p with
  | Some k =>
      match FS.lstat (fs w) k with
      | Some File | Some (Link _) => (Ret (), set_fs (delete k (fs w)) w)
      | Some Dir | None => (Raise OSError, w)
      end
  | None => (Raise OSError, w)
  end.

(** [os.symlink(src, dst)]: [dst] must not exist and its directory must. *)
Definition os_symlink (src dst : string) : M unit := λ w,
  let w := log (Symlink src dst) w in
  match FS.locate w dst with
  | Some k =>
      match FS.lstat (fs w) k, FS.lstat (fs w) (Path.parent k) with
      | None, Some Dir => (Ret (), set_fs (<[k := Link src]> (fs w)) w)
      | _, _ => (Raise OSError, w)
      end
  | None => (Raise OSError, w)
  end.

(** [shutil.rmtree] refuses a link and needs a directory.  It removes
    what is in the directory and then the directory itself, with
    [os.rmdir]: that last step fails for the root, and for a path that
    ends in [.] or [..], which [rmdir] does not accept; the directory is
    then left behind, empty, and the error is raised. *)
Definition shutil_rmtree (p : string) : M unit := λ w,
  let w := log (Rmtree p) w in
  match FS.locate w p with
  | Some k =>
      match FS.lstat (fs w) k with
      | Some Dir =>
          if bool_decide (k = []) then
            (Raise OSError, set_fs (FS.prune k (fs w)) w)
          else if Path.ends_in_dot p then
            (Raise OSError, set_fs (<[k := Dir]> (FS.prune k (fs w))) w)
          else (Ret (), set_fs (FS.prune k (fs w)) w)
      | _ => (Raise OSError, w)
      end
  | None => (Raise OSError, w)
  end.

Definition os_makedirs (p : string) : M unit := λ w,
  let w := log (Makedirs p) w in
  match FS.locate w p with
  | Some k =>
      let '(ok, m) := FS.mkdirs (fs w) [] k in
      (if ok then Ret () else Raise OSError, set_fs m w)
  | None => (Raise OSError, w)
  end.

(** [subprocess.Popen(argv, ...)] followed by reading the streams. *)
Definition subprocess_Popen (argv : list string) : M process_output := λ w,
  let w := log (Popen argv) w in
  match programs w argv with
  | Some o => (Ret o, w)
  | None => (Raise OSError, w)
  end.

Definition sys_stdout_write (s : string) : M unit := λ w, (Ret (), put_stdout s w).
Definition sys_stderr_write (s : string) : M unit := λ w, (Ret (), put_stderr s w).
Definition sys_exit {A} (code : Z) : M A := raise (SystemExit code).

(** ** [getopt.getopt(args, "h", ["help"])] *)

Module Getopt.

(** [do_shorts]: every letter of a cluster must be [h]. *)
Fixpoint do_shorts (optstring : string) : string + list (string * string) :=
  match optstring with
  | EmptyString => inr []
  | String opt optstring' =>
      if bool_decide (opt = "h"%char) then
        match do_shorts optstring' with
        | inr opts => inr (("-h", "") :: opts)
        | inl msg => inl msg
        end
      else inl ("option -" +:+ String opt "" +:+ " not recognized")
  end.

(** The text before the first [=], and whether there is one. *)
Fixpoint cut_eq (s : string) : string * bool :=
  match s with
  | EmptyString => ("", false)
  | String c s' =>
      if bool_decide (c = "="%char) then ("", true)
      else let '(o, b) := cut_eq s' in (String c o, b)
  end.

(** [do_longs]: a prefix of [help] stands for it, and it takes no
    argument. *)
Definition do_longs (opt : string) : string + list (string * string) :=
  let '(opt, has_optarg) := cut_eq opt in
  if negb (Str.has_prefix opt "help") then
    inl ("option --" +:+ opt +:+ " not recognized")
  else if has_optarg then
    inl "option --help must not have an argument"
  else inr [("--help", "")].

Fixpoint getopt (args : list string) : string + (list (string * string) * list string) :=
  match args with
  | [] => inr ([], [])
  | a :: args' =>
      if Str.startswith "-" a && negb (bool_decide (a = "-")) then
        if bool_decide (a = "--") then inr ([], args')
        else
          let here :=
            match a with
            | String _ (String "-" opt) => do_longs opt
            | String _ optstring => do_shorts optstring
            | EmptyString => inr []
            end in
          match here, getopt args' with
          | inl msg, _ => inl msg
          | inr _, inl msg => inl msg
          | inr opts, inr (opts', rest) => inr (opts ++ opts', rest)
          end
      else inr ([], args)
  end.

End Getopt.

(** ** [nodevers/shared.py] *)

Module Shared.

Definition get_nodevers_prefix : M string :=
  nodevers_prefix ← os_getenv "NODEVERS_PREFIX";
  match nodevers_prefix with
  | Some p => mret p
  | None =>
      uid ← os_geteuid;
      if bool_decide (uid = 0) then mret "/opt/nodevers"
      else
        home_path ← os_getenv "HOME";
        match home_path with
        | Some h => mret (Path.join h ".nodevers")
        | None => raise AttributeError   (* os.path.join(None, ...) *)
        end
  end.

Definition dirs : list string :=
  ["versions"; "tmp"; "patches"; Path.join "patches" "global"].

Fixpoint valid_nodevers_prefix_loop (path : string) (dirs : list string) : M bool :=
  match dirs with
  | [] => mret true
  | i :: dirs' =>
      let full_path := Path.join path i in
      d ← os_path_isdir full_path;
      if negb d then mret false
      else valid_nodevers_prefix_loop path dirs'
  end.

Definition valid_nodevers_prefix (path : string) : M bool :=
  valid_nodevers_prefix_loop path dirs.

Fixpoint mknodevers_prefix_loop (path : string) (dirs : list string) : M unit :=
  match dirs with
  | [] => mret ()
  | i :: dirs' =>
      let full_path := Path.join path i in
      os_makedirs full_path;;
      mknodevers_prefix_loop path dirs'
  end.

Definition mknodevers_prefix (path : string) : M unit :=
  e ← os_path_exists path;
  (if e : bool then shutil_rmtree path else mret ());;
  mknodevers_prefix_loop path dirs.

Definition valid_version_string (ver : string) : bool :=
  let regex := "^(\d+)\.(\d+)\.(\d+)$" in
  match Re.re_match regex ver with
  | None => false
  | Some _ => true
  end.

Definition get_versions_dir : M string :=
  p ← get_nodevers_prefix; mret (Path.join p "versions").

Definition get_bin_dir : M string :=
  p ← get_nodevers_prefix; mret (Path.join p "bin").

Definition get_patches_dir : M string :=
  p ← get_nodevers_prefix; mret (Path.join p "patches").

Definition get_tmp_dir : M string :=
  p ← get_nodevers_prefix; mret (Path.join p "tmp").

Definition get_version_dir (ver : string) : M string :=
  d ← get_versions_dir; mret (Path.join d ver).

Definition version_exists (ver : string) : M bool :=
  version_dir ← get_version_dir ver;
  d ← os_path_isdir version_dir;
  if d : bool then mret true else mret false.

Definition get_real_version_dir (ver : string) : M (option string) :=
  e ← version_exists ver;
  if e : bool then vd ← get_version_dir ver; mret (Some vd) else mret None.

(** The body of [for patch in os.listdir(dir)]; [patches_list] is the
    list the loop appends to. *)
Fixpoint get_patches_list_loop (dir : string) (names : list string)
    (patches_list : list string) : M (list string) :=
  match names with
  | [] => mret patches_list
  | patch :: names' =>
      let full_path := Path.join dir patch in
      d ← os_path_isdir full_path;
      get_patches_list_loop dir names'
        (if negb d then patches_list ++ [full_path] else patches_list)
  end.

Definition get_patches_list (ver : string) : M (list string) :=
  let patches_list := [] in
  pd ← get_patches_dir;
  let global_patch_dir := Path.join pd "global" in
  pd' ← get_patches_dir;
  let version_patch_dir := Path.join pd' ver in
  names ← os_listdir global_patch_dir;
  patches_list ← get_patches_list_loop global_patch_dir names patches_list;
  d ← os_path_isdir version_patch_dir;
  if d : bool then
    names ← os_listdir version_patch_dir;
    get_patches_list_loop version_patch_dir names patches_list
  else mret patches_list.

Definition __try_python (python_exe : string) : M bool :=
  let regex := "Python (2\.[67]\.\d+)" in
  except_OSError
    (process ← subprocess_Popen [python_exe; "-V"];
     let ver := err_stream process in
     match Re.re_match regex ver with
     | None => mret false
     | Some _ => mret true
     end)
    (mret false).

Definition __try_make (make_exe : string) : M bool :=
  let regex := "GNU [Mm]ake" in
  except_OSError
    (process ← subprocess_Popen [make_exe; "-v"];
     let ver := out_stream process in
     match Re.re_match regex ver with
     | None => mret false
     | Some _ => mret true
     end)
    (mret false).

Definition python : M string :=
  a ← __try_python "python";
  if a : bool then mret "python"
  else
    b ← __try_python "python2";
    if b : bool then mret "python2"
    else raise (MissingToolError
                  "python is either missing, newer than 2.x or older than 2.6").

Definition gmake : M string :=
  a ← __try_make "make";
  if a : bool then mret "make"
  else
    b ← __try_make "gmake";
    if b : bool then mret "gmake"
    else raise (MissingToolError "make is either missing or not GNU make").

Definition help_func {A} (help_str : string) : M A :=
  sys_stdout_write help_str;;
  sys_exit 0.

Definition link_to (ver : string) : M unit :=
  if bool_decide (ver = "system") then
    b ← get_bin_dir;
    l ← os_path_lexists b;
    if l : bool then b' ← get_bin_dir; os_unlink b' else mret ()
  else
    e ← version_exists ver;
    if e : bool then
      b ← get_bin_dir;
      l ← os_path_lexists b;
      (if l : bool then b' ← get_bin_dir; os_unlink b' else mret ());;
      vd ← get_version_dir ver;
      let version_bin_dir := Path.join vd "bin" in
      b'' ← get_bin_dir;
      os_symlink version_bin_dir b''
    else raise (NoSuchVersionError "there is no such version installed").

Definition current_version : M string :=
  process ← subprocess_Popen ["node"; "-v"];
  let node_output := out_stream process in
  let regex := "v(\d+\.\d+\.\d+)" in
  let match_ := Re.re_match regex node_output in
  match match_ ≫= (λ m, Re.group m 1) with
  | Some ver => mret ver
  | None => raise AttributeError   (* None has no attribute group *)
  end.

End Shared.

(** ** [nodevers/remove.py] *)

Module Remove.

Definition nl : string := String Str.LF "".

Definition __helpstr__ : string :=
  "Usage: nodevers remove <version> [options]" +:+ nl +:+
  nl +:+
  "  Summary:" +:+ nl +:+
  "      Uninstalls the specified Node version" +:+ nl +:+
  nl +:+
  "  Options:" +:+ nl +:+
  "      -h/--help         Print this text" +:+ nl +:+
  nl.

(** Modelled from the spec: the modules [nodevers.use] and
    [nodevers.version], from which [remove] takes [link_to] and
    [current_version], are not among the sources.  The spec has
    [remove] switch the Activation Manager to "system" and use the
    discovery of the Activation Manager, which are [shared.link_to] and
    [shared.current_version]. *)
Definition use_link_to : string → M unit := Shared.link_to.
Definition version_current_version : M string := Shared.current_version.

Definition remove (ver : string) : M unit :=
  cur ← version_current_version;
  (if bool_decide (ver = cur) then use_link_to "system" else mret ());;
  vd ← Shared.get_version_dir ver;
  shutil_rmtree vd.

(** [for option, value in optlist: ...] *)
Fixpoint parse_loop (optlist : list (string * string)) : M unit :=
  match optlist with
  | [] => mret ()
  | (option, value) :: optlist' =>
      (if bool_decide (option ∈ ["-h"; "--help"])
       then Shared.help_func __helpstr__ else mret ());;
      parse_loop optlist'
  end.

Definition parse (args : list string) : M unit :=
  match args with
  | [] => Shared.help_func __helpstr__
  | args0 :: _ =>
      match Getopt.getopt args with
      | inl err =>
          sys_stderr_write ("Error: " +:+ err +:+ "." +:+ nl);;
          sys_exit (-1)
      | inr (optlist, arglist) =>
          parse_loop optlist;;
          e ← Shared.version_exists args0;
          if e : bool then remove args0
          else sys_stdout_write ("There is no such version installed." +:+ nl)
      end
  end.

End Remove.

(** ** A sample installation *)

Module Sample.

Definition tree : gmap path node :=
  list_to_map
    [ (["opt"], Dir);
      (["opt"; "nodevers"], Dir);
      (["opt"; "nodevers"; "versions"], Dir);
      (["opt"; "nodevers"; "tmp"], Dir);
      (["opt"; "nodevers"; "patches"], Dir);
      (["opt"; "nodevers"; "patches"; "global"], Dir);
      (["opt"; "nodevers"; "patches"; "global"; "a"], File);
      (["opt"; "nodevers"; "patches"; "global"; "b"], File);
      (["opt"; "nodevers"; "patches"; "global"; "old"], Dir);
      (["opt"; "nodevers"; "patches"; "5.10.2"], Dir);
      (["opt"; "nodevers"; "patches"; "5.10.2"; "c"], File);
      (["opt"; "nodevers"; "versions"; "5.10.2"], Dir);
      (["opt"; "nodevers"; "versions"; "5.10.2"; "bin"], Dir);
      (["opt"; "nodevers"; "versions"; "5.10.2"; "bin"; "node"], File);
      (["opt"; "nodevers"; "versions"; "4.2.0"], Dir);
      (["opt"; "nodevers"; "versions"; "4.2.0"; "bin"], Dir);
      (["opt"; "nodevers"; "bin"], Link "/opt/nodevers/versions/5.10.2/bin") ].

Definition run_program (argv : list string) : option process_output :=
  if bool_decide (argv = ["node"; "-v"]) then
    Some {| out_stream := "v5.10.2" +:+ Remove.nl; err_stream := "" |}
  else if bool_decide (argv = ["python2"; "-V"]) then
    Some {| out_stream := ""; err_stream := "Python 2.7.18" +:+ Remove.nl |}
  else if bool_decide (argv = ["python"; "-V"]) then
    Some {| out_stream := "Python 3.11.4" +:+ Remove.nl; err_stream := "" |}
  else None.

Definition w0 : world :=
  {| fs := tree; cwd := ["root"]; environ := ∅; euid := 0;
     programs := run_program; stdout := ""; stderr := ""; calls := [] |}.

(** A regular file of the installation. *)
Definition a_file : string := "/opt/nodevers/patches/global/a".

(** The same installation with no runtime on the search path. *)
Definition no_runtime : world :=
  {| fs := tree; cwd := ["root"]; environ := ∅; euid := 0;
     programs := λ _, None; stdout := ""; stderr := ""; calls := [] |}.

(** The same installation with a runtime that prints no version. *)
Definition garbled_runtime : world :=
  {| fs := tree; cwd := ["root"]; environ := ∅; euid := 0;
     programs := λ _, Some {| out_stream := "node: bad option"; err_stream := "" |};
     stdout := ""; stderr := ""; calls := [] |}.

(** An installation in which [bin] is a directory of its own. *)
Definition bin_is_directory : world :=
  {| fs := <[["opt"; "nodevers"; "bin"] := Dir]> tree; cwd := ["root"];
     environ := ∅; euid := 0; programs := run_program;
     stdout := ""; stderr := ""; calls := [] |}.

(** A root user on a machine with nothing installed. *)
Definition bare : world :=
  {| fs := ∅; cwd := []; environ := ∅; euid := 0;
     programs := λ _, None; stdout := ""; stderr := ""; calls := [] |}.

(** A user without a home directory in the environment. *)
Definition homeless : world :=
  {| fs := tree; cwd := ["root"]; environ := ∅; euid := 1000;
     programs := run_program; stdout := ""; stderr := ""; calls := [] |}.

End Sample.

(** ** The vocabulary of the specification *)

Module Spec.

(** A nonempty run of decimal digits. *)
Definition digits (s : string) : Prop :=
  s ≠ "" ∧ Str.all Str.is_digit s = true.

(** Three dot-separated groups of digits and nothing else: the strings
    the specification calls a Version. *)
Definition three_groups (s : string) : Prop :=
  ∃ a b c, digits a ∧ digits b ∧ digits c ∧ s = a +:+ "." +:+ b +:+ "." +:+ c.

(** The prefix of the run is [pfx]. *)
Definition prefix_is (w : world) (pfx : string) : Prop :=
  Shared.get_nodevers_prefix w = (Ret pfx, w).

Definition versions_dir (pfx : string) : string := Path.join pfx "versions".
Definition version_dir (pfx ver : string) : string := Path.join (versions_dir pfx) ver.
Definition version_bin_dir (pfx ver : string) : string := Path.join (version_dir pfx ver) "bin".
Definition bin_dir (pfx : string) : string := Path.join pfx "bin".
Definition patches_dir (pfx : string) : string := Path.join pfx "patches".
Definition global_patch_dir (pfx : string) : string := Path.join (patches_dir pfx) "global".
Definition version_patch_dir (pfx ver : string) : string := Path.join (patches_dir pfx) ver.

(** Where the Active Link lives in the file system of [w]. *)
Definition active_link (w : world) (pfx : string) : path :=
  Path.resolve (cwd w) (bin_dir pfx).

(** A file system is a tree: the root is not an entry, and every entry
    lies in a real directory. *)
Definition tree_shaped (m : gmap path node) : Prop :=
  map_Forall (λ k _, k ≠ [] ∧ FS.lstat m (Path.parent k) = Some Dir) m.

(** The banner of a Python 2.6.x or 2.7.x: [Python 2.6.] or
    [Python 2.7.] and a digit, followed by anything. *)
Definition python_2_6_or_2_7_banner (s : string) : bool :=
  match Str.strip_prefix "Python 2." s with
  | Some (String minor (String dot (String d _))) =>
      (bool_decide (minor = "6"%char) || bool_decide (minor = "7"%char))
      && bool_decide (dot = "."%char) && Str.is_digit d
  | _ => false
  end.

(** A candidate interpreter is usable when it can be run and prints
    such a banner on its error stream. *)
Definition usable_python (w : world) (exe : string) : bool :=
  match programs w [exe; "-V"] with
  | Some o => python_2_6_or_2_7_banner (err_stream o)
  | None => false
  end.

(** What the runtime reports as its version, when it can be run and its
    output has the expected form. *)
Definition reported_version (w : world) : option string :=
  o ← programs w ["node"; "-v"];
  m ← Re.re_match "v(\d+\.\d+\.\d+)" (out_stream o);
  Re.group m 1.

(** The entries of [dir] that are not directories, as full paths, in
    listing order. *)
Definition patch_files (w : world) (dir : string) : list string :=
  match FS.listing w dir with
  | Some names =>
      filter (λ p, FS.isdir w p = false) (Path.join dir <$> names)
  | None => []
  end.

(** The four directories of the prefix at [kp]. *)
Definition layout (kp : path) : list path :=
  [kp ++ ["versions"]; kp ++ ["tmp"]; kp ++ ["patches"]; kp ++ ["patches"; "global"]].

(** A name that is one component of a path. *)
Definition plain (name : string) : bool :=
  negb (bool_decide (name = "")) && negb (bool_decide (name = "."))
  && negb (bool_decide (name = ".."))
  && Str.all (λ c, negb (bool_decide (c = "/"%char))) name.

(** The world [w] after the calls [cs] have left the file system [m]. *)
Definition after (w : world) (cs : list call) (m : gmap path node) : world :=
  {| fs := m; cwd := cwd w; environ := environ w; euid := euid w;
     programs := programs w; stdout := stdout w; stderr := stderr w;
     calls := calls w ++ cs |}.

(** The banner of GNU make: [GNU make] or [GNU Make], followed by
    anything. *)
Definition gnu_make_banner (s : string) : bool :=
  match Str.strip_prefix "GNU " s with
  | Some (String m r) =>
      (bool_decide (m = "M"%char) || bool_decide (m = "m"%char))
      && match Str.strip_prefix "ake" r with Some _ => true | None => false end
  | _ => false
  end.

(** A candidate build tool is usable when it can be run and prints such
    a banner on its output stream. *)
Definition usable_make (w : world) (exe : string) : bool :=
  match programs w [exe; "-v"] with
  | Some o => gnu_make_banner (out_stream o)
  | None => false
  end.

(** The four directories of the prefix are real directories. *)
Definition laid_out (w : world) (pfx : string) : Prop :=
  Forall (λ k, FS.lstat (fs w) k = Some Dir) (layout (Path.resolve (cwd w) pfx)).

(** [s] does not go on with a digit. *)
Definition no_digit_ahead (s : string) : bool :=
  match s with
  | String c _ => negb (Str.is_digit c)
  | EmptyString => true
  end.

(** A path written without [.] and [..]: it names the entry that its
    components spell out. *)
Definition direct (p : string) : bool :=
  forallb (λ n, negb (bool_decide (n = ".")) && negb (bool_decide (n = "..")))
    (Path.split_slash p).

(** The [isdir] calls of a check of [dirs] under [path]: one for each
    directory up to the first that is missing. *)
Fixpoint probes (w : world) (path : string) (dirs : list string) : list call :=
  match dirs with
  | [] => []
  | d :: dirs' =>
      Isdir (Path.join path d)
      :: if FS.isdir w (Path.join path d) then probes w path dirs' else []
  end.

End Spec.

(** * Properties *)

(** ** The monad *)

Lemma bind_unfold {A B} (m : M A) (f : A → M B) (w : world) :
  (m ≫= f) w =
  match m w with
  | (Ret a, w') => f a w'
  | (Raise e, w') => (Raise e, w')
  end.
Proof. reflexivity. Qed.

Lemma bind_ret {A B} (m : M A) (f : A → M B) w a w' :
  m w = (Ret a, w') → (m ≫= f) w = f a w'.
Proof. intros H. rewrite bind_unfold, H. reflexivity. Qed.

Lemma bind_raise {A B} (m : M A) (f : A → M B) w e w' :
  m w = (Raise e, w') → (m ≫= f) w = (Raise e, w').
Proof. intros H. rewrite bind_unfold, H. reflexivity. Qed.

(** ** Strings *)

Lemma str_app_cons (c : ascii) (a b : string) : String c a +:+ b = String c (a +:+ b).
Proof. reflexivity. Qed.

Lemma str_app_empty_l (s : string) : "" +:+ s = s.
Proof. reflexivity. Qed.

Lemma str_app_empty_r (s : string) : s +:+ "" = s.
Proof. induction s as [|c s IH]; [done|]. by rewrite str_app_cons, IH. Qed.

Lemma str_app_assoc (a b c : string) : (a +:+ b) +:+ c = a +:+ b +:+ c.
Proof. induction a as [|x a IH]; [done|]. by rewrite !str_app_cons, IH. Qed.

Lemma str_length_app (a b : string) :
  String.length (a +:+ b) = String.length a + String.length b.
Proof. induction a as [|x a IH]; [done|]. rewrite str_app_cons. cbn. by rewrite IH. Qed.

Lemma str_all_app f (a b : string) : Str.all f (a +:+ b) = Str.all f a && Str.all f b.
Proof.
  induction a as [|x a IH]; [done|]. rewrite str_app_cons. cbn.
  rewrite IH. by rewrite andb_assoc.
Qed.

Lemma str_all_impl (f g : ascii → bool) (s : string) :
  (∀ c, f c = true → g c = true) → Str.all f s = true → Str.all g s = true.
Proof.
  intros Hfg. induction s as [|c s IH]; [done|]. cbn.
  intros [Hc Hs]%andb_true_iff. rewrite (Hfg _ Hc). cbn. auto.
Qed.

(** ** The matcher *)

Section Matcher.

Implicit Types (items : list Re.item) (a : Re.atom) (pos : nat) (s : string).

Lemma run_Bol_Some items pos s :
  is_Some (Re.run (Re.Bol :: items) pos s) ↔ pos = 0 ∧ is_Some (Re.run items pos s).
Proof.
  cbn. case_bool_decide as Hpos.
  - split; [by split | by intros [_ ?]].
  - split; [by intros []%is_Some_None | by intros [? _]].
Qed.

Lemma run_Open_Some items pos s :
  is_Some (Re.run (Re.Open :: items) pos s) ↔ is_Some (Re.run items pos s).
Proof. cbn. by rewrite fmap_is_Some. Qed.

Lemma run_Close_Some items pos s :
  is_Some (Re.run (Re.Close :: items) pos s) ↔ is_Some (Re.run items pos s).
Proof. cbn. by rewrite fmap_is_Some. Qed.

Lemma run_One_Some items a pos s :
  is_Some (Re.run (Re.One a :: items) pos s) ↔
  ∃ c s', s = String c s' ∧ Re.atom_ok a c = true ∧ is_Some (Re.run items (S pos) s').
Proof.
  cbn. destruct s as [|c s'].
  { split; [by intros []%is_Some_None | by intros (? & ? & ? & _)]. }
  destruct (Re.atom_ok a c) eqn:Hc.
  - split; [eauto 6|]. by intros (? & ? & [= <- <-] & _ & ?).
  - split; [by intros []%is_Some_None|]. intros (? & ? & [= <- <-] & ? & _). congruence.
Qed.

Lemma run_Eol_Some items pos s :
  is_Some (Re.run (Re.Eol :: items) pos s) ↔
  (s = "" ∨ s = String Str.LF "") ∧ is_Some (Re.run items pos s).
Proof.
  cbn. destruct s as [|c [|c' s']].
  - split; [by split; [left|] | by intros [_ ?]].
  - destruct (decide (c = Str.LF)) as [->|Hne].
    { split; [by split; [right|] | by intros [_ ?]]. }
    assert (match c with
            | "010"%char => Re.run items pos (String c "")
            | _ => None
            end = None) as ->.
    { destruct c as [[] [] [] [] [] [] [] []]; try done. }
    split; [by intros []%is_Some_None|]. intros [[|[=]] _]; done.
  - assert (match c with
            | "010"%char => None
            | _ => None
            end = @None (list nat)) as ->.
    { by destruct c as [[] [] [] [] [] [] [] []]. }
    split; [by intros []%is_Some_None|]. intros [[|[=]] _]; done.
Qed.

Lemma plus_loop_Some a (k : nat → string → option (list nat)) pos s :
  is_Some (Re.plus_loop a k pos s) ↔
  ∃ x r, x ≠ "" ∧ Str.all (Re.atom_ok a) x = true ∧ s = x +:+ r
         ∧ is_Some (k (pos + String.length x) r).
Proof.
  revert pos. induction s as [|c s IH]; intros pos; cbn.
  { split; [by intros []%is_Some_None|].
    intros ([|] & r & Hx & _ & Hs & _); [done|]. by rewrite str_app_cons in Hs. }
  destruct (Re.atom_ok a c) eqn:Hc.
  - destruct (Re.plus_loop a k (S pos) s) eqn:Hloop.
    + split; [intros _ | by eauto].
      destruct (proj1 (IH (S pos))) as (x & r & Hx & Hall & -> & Hk); [by eauto|].
      exists (String c x), r. cbn. rewrite Hc, Hall.
      split_and!; try done. by rewrite <-Nat.add_succ_comm.
    + split.
      * intros Hk. exists (String c ""), s. cbn. rewrite Hc.
        split_and!; try done. by rewrite Nat.add_1_r.
      * intros ([|c' x] & r & Hx & Hall & Hs & Hk); [done|].
        rewrite str_app_cons in Hs. injection Hs as <- ->.
        destruct x as [|c'' x].
        { cbn in Hk. by rewrite Nat.add_1_r in Hk. }
        cbn in Hall. apply andb_true_iff in Hall as [_ Hall].
        assert (is_Some (Re.plus_loop a k (S pos) (String c'' x +:+ r))) as HS.
        { apply IH. exists (String c'' x), r. split_and!; try done.
          cbn in Hk |- *. by rewrite <-Nat.add_succ_comm in Hk. }
        rewrite Hloop in HS. by destruct HS.
  - split; [by intros []%is_Some_None|].
    intros ([|c' x] & r & Hx & Hall & Hs & _); [done|].
    rewrite str_app_cons in Hs. injection Hs as <- ->.
    cbn in Hall. rewrite Hc in Hall. done.
Qed.

Lemma run_Plus_Some items a pos s :
  is_Some (Re.run (Re.Plus a :: items) pos s) ↔
  ∃ x r, x ≠ "" ∧ Str.all (Re.atom_ok a) x = true ∧ s = x +:+ r
         ∧ is_Some (Re.run items (pos + String.length x) r).
Proof. apply plus_loop_Some. Qed.

Lemma run_nil_Some pos s : is_Some (Re.run [] pos s).
Proof. by eexists. Qed.

End Matcher.

Lemma valid_version_string_items :
  Re.re_compile "^(\d+)\.(\d+)\.(\d+)$" =
  Some [Re.Bol; Re.Open; Re.Plus Re.Digit; Re.Close; Re.One (Re.Lit ".");
        Re.Open; Re.Plus Re.Digit; Re.Close; Re.One (Re.Lit ".");
        Re.Open; Re.Plus Re.Digit; Re.Close; Re.Eol].
Proof. reflexivity. Qed.

Lemma valid_version_string_run (s : string) :
  Shared.valid_version_string s = true ↔
  is_Some (Re.run
    [Re.Bol; Re.Open; Re.Plus Re.Digit; Re.Close; Re.One (Re.Lit ".");
     Re.Open; Re.Plus Re.Digit; Re.Close; Re.One (Re.Lit ".");
     Re.Open; Re.Plus Re.Digit; Re.Close; Re.Eol] 0 s).
Proof.
  unfold Shared.valid_version_string, Re.re_match.
  rewrite valid_version_string_items. cbn [mbind option_bind].
  destruct (Re.run _ 0 s); cbn; split; try done; by intros []%is_Some_None.
Qed.

Lemma version_items_accept (a b c e : string) :
  Spec.digits a → Spec.digits b → Spec.digits c →
  e = "" ∨ e = String Str.LF "" →
  is_Some (Re.run
    [Re.Bol; Re.Open; Re.Plus Re.Digit; Re.Close; Re.One (Re.Lit ".");
     Re.Open; Re.Plus Re.Digit; Re.Close; Re.One (Re.Lit ".");
     Re.Open; Re.Plus Re.Digit; Re.Close; Re.Eol] 0
    (a +:+ "." +:+ b +:+ "." +:+ c +:+ e)).
Proof.
  intros [Ha Hda] [Hb Hdb] [Hc Hdc] He.
  apply run_Bol_Some; split; [done|].
  apply run_Open_Some, run_Plus_Some.
  exists a, ("." +:+ b +:+ "." +:+ c +:+ e). split_and!; try done.
  apply run_Close_Some, run_One_Some.
  exists "."%char, (b +:+ "." +:+ c +:+ e). split_and!; try done.
  apply run_Open_Some, run_Plus_Some.
  exists b, ("." +:+ c +:+ e). split_and!; try done.
  apply run_Close_Some, run_One_Some.
  exists "."%char, (c +:+ e). split_and!; try done.
  apply run_Open_Some, run_Plus_Some.
  exists c, e. split_and!; try done.
  apply run_Close_Some, run_Eol_Some. split; [done|]. apply run_nil_Some.
Qed.

(** What [valid_version_string] accepts: three groups of digits, and
    those followed by one newline. *)
Theorem valid_version_string_accepts (s : string) :
  Shared.valid_version_string s = true ↔
  Spec.three_groups s ∨ ∃ t, Spec.three_groups t ∧ s = t +:+ Remove.nl.
Proof.
  rewrite valid_version_string_run. split.
  - rewrite run_Bol_Some, run_Open_Some, run_Plus_Some.
    setoid_rewrite run_Close_Some. setoid_rewrite run_One_Some.
    setoid_rewrite run_Open_Some. setoid_rewrite run_Plus_Some.
    setoid_rewrite run_Close_Some. setoid_rewrite run_One_Some.
    setoid_rewrite run_Open_Some. setoid_rewrite run_Plus_Some.
    setoid_rewrite run_Close_Some. setoid_rewrite run_Eol_Some.
    intros (_ & a & r1 & Ha & Hda & -> & c1 & r1' & -> & Hc1 &
            b & r2 & Hb & Hdb & -> & c2 & r2' & -> & Hc2 &
            c & r3 & Hc & Hdc & -> & He & _).
    cbn in Hc1, Hc2. apply bool_decide_eq_true in Hc1 as ->.
    apply bool_decide_eq_true in Hc2 as ->.
    assert (Spec.three_groups (a +:+ "." +:+ b +:+ "." +:+ c)) as H3.
    { exists a, b, c. by repeat split. }
    destruct He as [-> | ->].
    + left. by rewrite str_app_empty_r.
    + right. eexists. split; [exact H3|]. by rewrite !str_app_assoc.
  - intros [(a & b & c & Ha & Hb & Hc & ->)
           | (t & (a & b & c & Ha & Hb & Hc & ->) & ->)].
    + rewrite <-(str_app_empty_r c). apply version_items_accept; auto.
    + rewrite !str_app_assoc. apply version_items_accept; auto.
Qed.

Lemma three_groups_head (s : string) :
  Spec.three_groups s → ∃ c s', s = String c s' ∧ Str.is_digit c = true.
Proof.
  intros ([|c a] & b & d & [Ha Hda] & _ & _ & ->); [done|].
  cbn in Hda. apply andb_true_iff in Hda as [Hc _].
  rewrite str_app_cons. eauto.
Qed.

Lemma three_groups_no_slash (s : string) :
  Spec.three_groups s →
  Str.all (λ c, negb (bool_decide (c = "/"%char))) s = true.
Proof.
  assert (∀ x, Spec.digits x →
            Str.all (λ c, negb (bool_decide (c = "/"%char))) x = true) as Hd.
  { intros x [_ Hx]. revert Hx. apply str_all_impl.
    intros c Hc. apply negb_true_iff, bool_decide_eq_false. by intros ->. }
  intros (a & b & c & Ha & Hb & Hc & ->).
  rewrite !str_all_app, (Hd a), (Hd b), (Hd c) by done. reflexivity.
Qed.

Lemma valid_version_string_head (v : string) :
  Shared.valid_version_string v = true →
  ∃ c s', v = String c s' ∧ Str.is_digit c = true.
Proof.
  intros [H3 | (t & H3 & ->)]%valid_version_string_accepts;
    destruct (three_groups_head _ H3) as (c & s' & -> & Hc); eauto.
Qed.

Lemma valid_version_string_plain (v : string) :
  Shared.valid_version_string v = true → Spec.plain v = true.
Proof.
  intros Hv. destruct (valid_version_string_head v Hv) as (c & s' & -> & Hc).
  unfold Spec.plain.
  assert (Str.all (λ c, negb (bool_decide (c = "/"%char))) (String c s') = true) as ->.
  { apply valid_version_string_accepts in Hv as [H3 | (t & H3 & Ht)].
    - by apply three_groups_no_slash.
    - rewrite Ht, str_all_app, three_groups_no_slash by done. reflexivity. }
  rewrite !bool_decide_eq_false_2; [done|..]; intros [= -> _]; done.
Qed.

Lemma valid_version_string_not_option (v : string) :
  Shared.valid_version_string v = true → Str.startswith "-" v = false.
Proof.
  intros (c & s' & -> & Hc)%valid_version_string_head. cbn.
  apply bool_decide_eq_false. by intros ->.
Qed.

Lemma valid_version_string_not_system (v : string) :
  Shared.valid_version_string v = true → v ≠ "system".
Proof. by intros Hv ->. Qed.

(** ** Paths *)

Lemma split_slash_cons (s : string) : ∃ h t, Path.split_slash s = h :: t.
Proof.
  induction s as [|c s (h & t & IH)]; cbn; [by eauto|].
  case_bool_decide; [by eauto|]. rewrite IH. eauto.
Qed.

Lemma split_slash_app (a b : string) :
  Path.split_slash (a +:+ "/" +:+ b) = Path.split_slash a ++ Path.split_slash b.
Proof.
  induction a as [|c a IH]; [done|]. rewrite str_app_cons. cbn.
  case_bool_decide; [by rewrite IH|].
  rewrite IH. destruct (split_slash_cons a) as (h & t & ->). done.
Qed.

Lemma split_slash_plain (b : string) :
  Str.all (λ c, negb (bool_decide (c = "/"%char))) b = true →
  Path.split_slash b = [b].
Proof.
  induction b as [|c b IH]; [done|]. cbn.
  intros [Hc Hb]%andb_true_iff. apply negb_true_iff in Hc. rewrite Hc.
  by rewrite IH.
Qed.

Lemma endswith_slash (a : string) :
  Str.endswith "/" a = true → ∃ a', a = a' +:+ "/".
Proof.
  induction a as [|c a IH]; [done|]. cbn. destruct a as [|c' a].
  - intros ->%bool_decide_eq_true. by exists "".
  - intros (a' & ->)%IH. exists (String c a'). by rewrite str_app_cons.
Qed.

Lemma startswith_app (c : ascii) (a b : string) :
  a ≠ "" → Str.startswith c (a +:+ b) = Str.startswith c a.
Proof. by destruct a. Qed.

Lemma walk_app (from : path) (xs ys : list string) :
  Path.walk from (xs ++ ys) = Path.walk (Path.walk from xs) ys.
Proof. apply fold_left_app. Qed.

Lemma plain_inv (b : string) :
  Spec.plain b = true →
  b ≠ "" ∧ Str.startswith "/" b = false ∧ Path.split_slash b = [b]
  ∧ ∀ k, Path.step k b = k ++ [b].
Proof.
  unfold Spec.plain. rewrite !andb_true_iff, !negb_true_iff.
  intros [[[H1 H2] H3] H4].
  pose proof H1 as H1'. apply bool_decide_eq_false in H1. split_and!; try done.
  - destruct b as [|c b]; [done|]. cbn in *.
    apply andb_true_iff in H4 as [H4 _]. by apply negb_true_iff in H4.
  - by apply split_slash_plain.
  - intros k. unfold Path.step. by rewrite H1', H2, H3.
Qed.

Lemma resolve_join (cwd : path) (a b : string) :
  Spec.plain b = true →
  Path.resolve cwd (Path.join a b) = Path.resolve cwd a ++ [b].
Proof.
  intros (Hne & Hst & Hsp & Hstep)%plain_inv.
  unfold Path.join. rewrite Hst. case_bool_decide as Ha; cbn [orb].
  { subst a. rewrite str_app_empty_l. unfold Path.resolve. rewrite Hst, Hsp.
    cbn. apply Hstep. }
  destruct (Str.endswith "/" a) eqn:Hend.
  - apply endswith_slash in Hend as (a' & ->). unfold Path.resolve.
    rewrite startswith_app by done.
    assert (Path.split_slash (a' +:+ "/") = Path.split_slash a' ++ [""]) as Hs
      by apply (split_slash_app a' "").
    rewrite str_app_assoc, split_slash_app, Hs, Hsp, !walk_app. cbn. apply Hstep.
  - unfold Path.resolve. rewrite startswith_app by done.
    rewrite split_slash_app, Hsp, walk_app. cbn. apply Hstep.
Qed.

Lemma join_nonempty (a b : string) : b ≠ "" → Path.join a b ≠ "".
Proof.
  intros Hb. unfold Path.join. destruct (Str.startswith "/" b); [done|].
  destruct a as [|c a]; [done|]. by destruct (_ || _).
Qed.

Lemma locate_join (w : world) (a b : string) :
  Spec.plain b = true →
  FS.locate w (Path.join a b) = Some (Path.resolve (cwd w) a ++ [b]).
Proof.
  intros Hb. unfold FS.locate.
  rewrite bool_decide_eq_false_2, resolve_join; [done..|].
  apply join_nonempty. by apply plain_inv.
Qed.

(** ** The prefix *)

Lemma get_nodevers_prefix_unfold (w : world) :
  Shared.get_nodevers_prefix w =
  (match environ w !! "NODEVERS_PREFIX" with
   | Some p => Ret p
   | None =>
       if bool_decide (euid w = 0) then Ret "/opt/nodevers"
       else match environ w !! "HOME" with
            | Some h => Ret (Path.join h ".nodevers")
            | None => Raise AttributeError
            end
   end, w).
Proof.
  unfold Shared.get_nodevers_prefix. rewrite bind_unfold. cbn.
  destruct (environ w !! "NODEVERS_PREFIX"); [done|].
  rewrite bind_unfold. cbn. case_bool_decide; [done|].
  rewrite bind_unfold. cbn. by destruct (environ w !! "HOME").
Qed.

Lemma prefix_is_env (w w' : world) (pfx : string) :
  environ w' = environ w → euid w' = euid w →
  Spec.prefix_is w pfx → Spec.prefix_is w' pfx.
Proof.
  unfold Spec.prefix_is. rewrite !get_nodevers_prefix_unfold.
  intros -> -> [= H]. by rewrite H.
Qed.

Lemma prefix_is_log w pfx c : Spec.prefix_is w pfx → Spec.prefix_is (log c w) pfx.
Proof. by apply prefix_is_env. Qed.

Lemma prefix_is_set_fs w pfx m : Spec.prefix_is w pfx → Spec.prefix_is (set_fs m w) pfx.
Proof. by apply prefix_is_env. Qed.

Lemma prefix_is_put_stdout w pfx s :
  Spec.prefix_is w pfx → Spec.prefix_is (put_stdout s w) pfx.
Proof. by apply prefix_is_env. Qed.

Section Prefix.

Context (w : world) (pfx : string) (Hpfx : Spec.prefix_is w pfx).

Lemma run_get_versions_dir :
  Shared.get_versions_dir w = (Ret (Spec.versions_dir pfx), w).
Proof. unfold Shared.get_versions_dir. by rewrite (bind_ret _ _ _ _ _ Hpfx). Qed.

Lemma run_get_bin_dir : Shared.get_bin_dir w = (Ret (Spec.bin_dir pfx), w).
Proof. unfold Shared.get_bin_dir. by rewrite (bind_ret _ _ _ _ _ Hpfx). Qed.

Lemma run_get_patches_dir :
  Shared.get_patches_dir w = (Ret (Spec.patches_dir pfx), w).
Proof. unfold Shared.get_patches_dir. by rewrite (bind_ret _ _ _ _ _ Hpfx). Qed.

Lemma run_get_version_dir ver :
  Shared.get_version_dir ver w = (Ret (Spec.version_dir pfx ver), w).
Proof.
  unfold Shared.get_version_dir. by rewrite (bind_ret _ _ _ _ _ run_get_versions_dir).
Qed.

Lemma run_version_exists ver :
  Shared.version_exists ver w =
  (Ret (FS.isdir w (Spec.version_dir pfx ver)),
   log (Isdir (Spec.version_dir pfx ver)) w).
Proof.
  unfold Shared.version_exists.
  rewrite (bind_ret _ _ _ _ _ (run_get_version_dir ver)).
  rewrite bind_unfold. unfold os_path_isdir.
  by destruct (FS.isdir w _).
Qed.

End Prefix.

(** ** Worlds *)

Lemma log_after w c : log c w = Spec.after w [c] (fs w).
Proof. reflexivity. Qed.

Lemma after_log w cs m c :
  log c (Spec.after w cs m) = Spec.after w (cs ++ [c]) m.
Proof. unfold log, Spec.after. cbn. by rewrite <-(assoc_L (++)). Qed.

Lemma after_set_fs w cs m m' : set_fs m' (Spec.after w cs m) = Spec.after w cs m'.
Proof. reflexivity. Qed.

Lemma after_after w cs m cs' m' :
  Spec.after (Spec.after w cs m) cs' m' = Spec.after w (cs ++ cs') m'.
Proof. unfold Spec.after. cbn. by rewrite <-(assoc_L (++)). Qed.

Lemma fs_after w cs m : fs (Spec.after w cs m) = m.
Proof. reflexivity. Qed.

Lemma set_fs_after w m : set_fs m w = Spec.after w [] m.
Proof. unfold set_fs, Spec.after. by rewrite (right_id_L [] (++)). Qed.

Ltac norm_world :=
  repeat (rewrite ?log_after, ?set_fs_after, ?after_after, ?fs_after;
          cbn [app]).

Lemma prefix_is_after w pfx cs m :
  Spec.prefix_is w pfx → Spec.prefix_is (Spec.after w cs m) pfx.
Proof. by apply prefix_is_env. Qed.

Lemma lstat_nonroot (m : gmap path node) (k : path) :
  k ≠ [] → FS.lstat m k = m !! k.
Proof. by destruct k. Qed.

Lemma active_link_eq w pfx :
  Spec.active_link w pfx = Path.resolve (cwd w) pfx ++ ["bin"].
Proof. by apply resolve_join. Qed.

Lemma active_link_nonroot w pfx : Spec.active_link w pfx ≠ [].
Proof. rewrite active_link_eq. by destruct (Path.resolve _ _). Qed.

Lemma locate_bin_dir w pfx :
  FS.locate w (Spec.bin_dir pfx) = Some (Spec.active_link w pfx).
Proof. unfold Spec.bin_dir. rewrite locate_join by done. by rewrite active_link_eq. Qed.

Lemma lexists_bin_dir w pfx :
  FS.lexists w (Spec.bin_dir pfx) =
  bool_decide (is_Some (FS.lstat (fs w) (Spec.active_link w pfx))).
Proof.
  unfold FS.lexists. rewrite locate_bin_dir. cbn.
  destruct (FS.lstat _ _); symmetry.
  - apply bool_decide_eq_true. by eexists.
  - apply bool_decide_eq_false. by intros [].
Qed.

(** ** [link_to("system")] *)

(** What [link_to("system")] does, by what is at the Active Link. *)
Lemma link_to_system_run w pfx :
  Spec.prefix_is w pfx →
  Shared.link_to "system" w =
  match FS.lstat (fs w) (Spec.active_link w pfx) with
  | None => (Ret (), Spec.after w [Lexists (Spec.bin_dir pfx)] (fs w))
  | Some Dir =>
      (Raise OSError,
       Spec.after w [Lexists (Spec.bin_dir pfx); Unlink (Spec.bin_dir pfx)] (fs w))
  | Some _ =>
      (Ret (),
       Spec.after w [Lexists (Spec.bin_dir pfx); Unlink (Spec.bin_dir pfx)]
         (delete (Spec.active_link w pfx) (fs w)))
  end.
Proof.
  intros Hpfx. unfold Shared.link_to. rewrite bool_decide_eq_true_2 by done.
  rewrite (bind_ret _ _ _ _ _ (run_get_bin_dir w pfx Hpfx)).
  rewrite bind_unfold. unfold os_path_lexists.
  rewrite lexists_bin_dir.
  destruct (FS.lstat (fs w) (Spec.active_link w pfx)) as [n|] eqn:Hl.
  - rewrite bool_decide_eq_true_2 by by eexists.
    rewrite (bind_ret _ _ _ _ _ (run_get_bin_dir _ pfx (prefix_is_log _ _ _ Hpfx))).
    unfold os_unlink.
    change (FS.locate (log _ (log _ w)) (Spec.bin_dir pfx))
      with (FS.locate w (Spec.bin_dir pfx)).
    rewrite locate_bin_dir. cbn [fs log]. rewrite Hl.
    destruct n; by norm_world.
  - rewrite bool_decide_eq_false_2 by by intros []. reflexivity.
Qed.

(** C6.  [link_to("system")] twice in a row, from a state in which the
    Active Link is a link (or a file) or is absent: both calls return,
    the link is absent after each, and the second call only looks. *)
Theorem link_to_system_idempotent (w : world) (pfx : string) :
  Spec.prefix_is w pfx →
  FS.lstat (fs w) (Spec.active_link w pfx) ≠ Some Dir →
  ∃ w1,
    Shared.link_to "system" w = (Ret (), w1)
    ∧ FS.lstat (fs w1) (Spec.active_link w pfx) = None
    ∧ Shared.link_to "system" w1 =
        (Ret (), Spec.after w1 [Lexists (Spec.bin_dir pfx)] (fs w1)).
Proof.
  intros Hpfx Hdir. rewrite (link_to_system_run w pfx Hpfx).
  pose proof (active_link_nonroot w pfx) as Hne.
  assert (∀ cs m, FS.lstat m (Spec.active_link w pfx) = None →
            Shared.link_to "system" (Spec.after w cs m) =
            (Ret (), Spec.after (Spec.after w cs m) [Lexists (Spec.bin_dir pfx)] m))
    as Hagain.
  { intros cs m Hm.
    rewrite (link_to_system_run _ pfx (prefix_is_after _ _ cs m Hpfx)).
    change (Spec.active_link (Spec.after _ _ _) pfx) with (Spec.active_link w pfx).
    rewrite fs_after. by rewrite Hm. }
  assert (FS.lstat (delete (Spec.active_link w pfx) (fs w))
            (Spec.active_link w pfx) = None) as Hgone.
  { rewrite lstat_nonroot by done. apply lookup_delete_eq. }
  destruct (FS.lstat (fs w) (Spec.active_link w pfx)) as [[| |t]|] eqn:Hl;
    try done; eexists; (split; [reflexivity|]); rewrite fs_after; auto.
Qed.

(** ** [current_version] and [remove] *)

Lemma current_version_run w :
  Shared.current_version w =
  (match programs w ["node"; "-v"] with
   | None => Raise OSError
   | Some o =>
       match Re.re_match "v(\d+\.\d+\.\d+)" (out_stream o)
             ≫= (λ m, Re.group m 1) with
       | Some v => Ret v
       | None => Raise AttributeError
       end
   end, Spec.after w [Popen ["node"; "-v"]] (fs w)).
Proof.
  unfold Shared.current_version. rewrite bind_unfold. unfold subprocess_Popen.
  cbn [programs log]. destruct (programs w ["node"; "-v"]) as [o|]; [|done].
  by destruct (Re.re_match _ _ ≫= λ m, Re.group m 1).
Qed.

Lemma current_version_reported w v :
  (Shared.current_version w).1 = Ret v ↔ Spec.reported_version w = Some v.
Proof.
  rewrite current_version_run. unfold Spec.reported_version. cbn.
  destruct (programs w ["node"; "-v"]) as [o|]; cbn; [|by split].
  destruct (Re.re_match "v(\d+\.\d+\.\d+)" (out_stream o)) as [m|]; cbn;
    [destruct (Re.group m 1)|]; cbn; (split; [intros [=]; by subst| intros [=]; by subst]).
Qed.

Lemma reported_version_None w :
  Spec.reported_version w = None → ∃ e, (Shared.current_version w).1 = Raise e.
Proof.
  rewrite current_version_run. unfold Spec.reported_version. cbn.
  destruct (programs w ["node"; "-v"]) as [o|]; cbn; [|by eauto].
  destruct (Re.re_match "v(\d+\.\d+\.\d+)" (out_stream o)) as [m|]; cbn;
    [destruct (Re.group m 1)|]; cbn; try done; by eauto.
Qed.

Lemma get_nodevers_prefix_cases w :
  (∃ pfx, Spec.prefix_is w pfx) ∨ ∃ e, Shared.get_nodevers_prefix w = (Raise e, w).
Proof.
  unfold Spec.prefix_is.
  destruct (Shared.get_nodevers_prefix w) as [[p|e] w'] eqn:H;
    pose proof H as H'; rewrite get_nodevers_prefix_unfold in H';
    injection H' as _ <-; eauto.
Qed.

Lemma shutil_rmtree_calls p w :
  calls (shutil_rmtree p w).2 = calls w ++ [Rmtree p].
Proof.
  unfold shutil_rmtree. destruct (FS.locate _ p) as [k|]; [|done].
  destruct (FS.lstat _ k) as [[]|]; try done.
  case_bool_decide; [done|]. by destruct (Path.ends_in_dot p).
Qed.

Lemma link_to_system_calls w :
  ∃ cs, calls (Shared.link_to "system" w).2 = calls w ++ cs.
Proof.
  destruct (get_nodevers_prefix_cases w) as [[pfx Hpfx]|[e He]].
  - rewrite (link_to_system_run w pfx Hpfx).
    destruct (FS.lstat _ _) as [[]|]; cbn; eauto.
  - exists []. unfold Shared.link_to. rewrite bool_decide_eq_true_2 by done.
    unfold Shared.get_bin_dir. rewrite !bind_unfold, He. cbn.
    by rewrite (right_id_L [] (++)).
Qed.

Lemma link_to_system_raise_fs w e w' :
  Shared.link_to "system" w = (Raise e, w') → fs w' = fs w.
Proof.
  destruct (get_nodevers_prefix_cases w) as [[pfx Hpfx]|[e' He]].
  - rewrite (link_to_system_run w pfx Hpfx).
    destruct (FS.lstat _ _) as [[]|]; intros [=]; by subst.
  - unfold Shared.link_to. rewrite bool_decide_eq_true_2 by done.
    unfold Shared.get_bin_dir. rewrite !bind_unfold, He. intros [=]; by subst.
Qed.

Lemma remove_tail_calls v w :
  ∃ cs, calls ((vd ← Shared.get_version_dir v; shutil_rmtree vd) w).2 = calls w ++ cs.
Proof.
  destruct (get_nodevers_prefix_cases w) as [[pfx Hpfx]|[e He]].
  - rewrite (bind_ret _ _ _ _ _ (run_get_version_dir w pfx Hpfx v)).
    rewrite shutil_rmtree_calls. eauto.
  - exists []. unfold Shared.get_version_dir, Shared.get_versions_dir.
    rewrite !bind_unfold, He. cbn. by rewrite (right_id_L [] (++)).
Qed.

(** C1.  When [v] is the version the runtime reports and the Active
    Link is a link, a file or absent (anything but a real directory),
    [remove(v)] runs [link_to("system")] right after the discovery, and
    that call returns: it leaves a world in which the Active Link is
    absent and nothing else has changed, after the calls of the
    discovery, [lexists] and, when the link was there, [unlink].  The
    directory of [v] is deleted in that world, by a call to
    [shutil.rmtree] that comes after the calls of the switch. *)
Theorem remove_active_switches_first (w : world) (v pfx : string) :
  Spec.prefix_is w pfx →
  (Shared.current_version w).1 = Ret v →
  FS.lstat (fs w) (Spec.active_link w pfx) ≠ Some Dir →
  ∃ w2,
    Remove.use_link_to "system" (Spec.after w [Popen ["node"; "-v"]] (fs w))
    = (Ret (), w2)
    ∧ fs w2 = delete (Spec.active_link w pfx) (fs w)
    ∧ FS.lstat (fs w2) (Spec.active_link w pfx) = None
    ∧ calls w2 =
        calls w ++ [Popen ["node"; "-v"]; Lexists (Spec.bin_dir pfx)]
        ++ (if FS.lexists w (Spec.bin_dir pfx)
            then [Unlink (Spec.bin_dir pfx)] else [])
    ∧ Remove.remove v w = shutil_rmtree (Spec.version_dir pfx v) w2
    ∧ calls (Remove.remove v w).2 = calls w2 ++ [Rmtree (Spec.version_dir pfx v)].
Proof.
  intros Hpfx Hcur Hnd. unfold Remove.remove, Remove.version_current_version.
  rewrite current_version_run in Hcur. cbn [fst] in Hcur.
  rewrite bind_unfold, current_version_run, Hcur.
  rewrite bool_decide_eq_true_2 by done.
  set (w1 := Spec.after w [Popen ["node"; "-v"]] (fs w)).
  assert (Spec.prefix_is w1 pfx) as Hpfx1 by by apply prefix_is_after.
  rewrite bind_unfold. unfold Remove.use_link_to.
  rewrite lexists_bin_dir.
  rewrite (link_to_system_run w1 pfx Hpfx1).
  change (Spec.active_link w1 pfx) with (Spec.active_link w pfx).
  change (fs w1) with (fs w).
  pose proof (active_link_nonroot w pfx) as Hne.
  destruct (FS.lstat (fs w) (Spec.active_link w pfx)) as [[| |t]|] eqn:Hl;
    [|done|..]; eexists; (split; [reflexivity|]); subst w1; norm_world.
  - rewrite bool_decide_eq_true_2 by by eexists.
    split_and!; [done|by rewrite lstat_nonroot, lookup_delete_eq|done|..].
    + by rewrite (bind_ret _ _ _ _ _
                   (run_get_version_dir _ pfx (prefix_is_after _ _ _ _ Hpfx) v)).
    + rewrite (bind_ret _ _ _ _ _
                   (run_get_version_dir _ pfx (prefix_is_after _ _ _ _ Hpfx) v)).
      by rewrite shutil_rmtree_calls.
  - rewrite bool_decide_eq_true_2 by by eexists.
    split_and!; [done|by rewrite lstat_nonroot, lookup_delete_eq|done|..].
    + by rewrite (bind_ret _ _ _ _ _
                   (run_get_version_dir _ pfx (prefix_is_after _ _ _ _ Hpfx) v)).
    + rewrite (bind_ret _ _ _ _ _
                   (run_get_version_dir _ pfx (prefix_is_after _ _ _ _ Hpfx) v)).
      by rewrite shutil_rmtree_calls.
  - rewrite bool_decide_eq_false_2 by by intros [].
    split_and!; [|done|done|..].
    + symmetry. apply delete_id. by rewrite lstat_nonroot in Hl.
    + by rewrite (bind_ret _ _ _ _ _
                   (run_get_version_dir _ pfx (prefix_is_after _ _ _ _ Hpfx) v)).
    + rewrite (bind_ret _ _ _ _ _
                   (run_get_version_dir _ pfx (prefix_is_after _ _ _ _ Hpfx) v)).
      by rewrite shutil_rmtree_calls.
Qed.

Lemma remove_active_switches_first_witness :
  ∃ w2,
    Remove.use_link_to "system"
      (Spec.after Sample.w0 [Popen ["node"; "-v"]] (fs Sample.w0)) = (Ret (), w2)
    ∧ fs w2 = delete (Spec.active_link Sample.w0 "/opt/nodevers") (fs Sample.w0)
    ∧ FS.lstat (fs w2) (Spec.active_link Sample.w0 "/opt/nodevers") = None
    ∧ calls w2 =
        calls Sample.w0
        ++ [Popen ["node"; "-v"]; Lexists (Spec.bin_dir "/opt/nodevers")]
        ++ (if FS.lexists Sample.w0 (Spec.bin_dir "/opt/nodevers")
            then [Unlink (Spec.bin_dir "/opt/nodevers")] else [])
    ∧ Remove.remove "5.10.2" Sample.w0 =
        shutil_rmtree (Spec.version_dir "/opt/nodevers" "5.10.2") w2
    ∧ calls (Remove.remove "5.10.2" Sample.w0).2 =
        calls w2 ++ [Rmtree (Spec.version_dir "/opt/nodevers" "5.10.2")].
Proof.
  apply (remove_active_switches_first Sample.w0 "5.10.2" "/opt/nodevers").
  - reflexivity.
  - reflexivity.
  - vm_compute; discriminate.
Defined.

Lemma link_to_system_idempotent_witness :
  ∃ w1,
    Shared.link_to "system" Sample.w0 = (Ret (), w1)
    ∧ FS.lstat (fs w1) (Spec.active_link Sample.w0 "/opt/nodevers") = None
    ∧ Shared.link_to "system" w1 =
        (Ret (), Spec.after w1 [Lexists (Spec.bin_dir "/opt/nodevers")] (fs w1)).
Proof.
  apply (link_to_system_idempotent Sample.w0 "/opt/nodevers").
  - reflexivity.
  - vm_compute; discriminate.
Defined.

(** C10.  [remove(v)] starts with the discovery, whatever [v] is: the
    first call it makes is running the runtime.  When the runtime cannot
    be run or its output has not the expected form, [remove] raises
    right there: no other call is made and the file system is as it
    was. *)
Theorem remove_discovers_first (w : world) (v : string) :
  (∃ cs, calls (Remove.remove v w).2 = calls w ++ Popen ["node"; "-v"] :: cs)
  ∧ (Spec.reported_version w = None →
     ∃ e, Remove.remove v w =
          (Raise e, Spec.after w [Popen ["node"; "-v"]] (fs w))).
Proof.
  unfold Remove.remove, Remove.version_current_version.
  rewrite bind_unfold. split.
  - rewrite current_version_run.
    set (w1 := Spec.after w [Popen ["node"; "-v"]] (fs w)).
    destruct (match programs w ["node"; "-v"] with
              | Some _ => _ | None => _ end) as [cur|e]; [|by exists []].
    rewrite bind_unfold.
    assert (∃ cs, calls ((if bool_decide (v = cur)
                          then Remove.use_link_to "system" else mret ()) w1).2
                  = calls w1 ++ cs) as [cs1 Hcs1].
    { case_bool_decide; [apply link_to_system_calls|].
      exists []. cbn. by rewrite (right_id_L [] (++)). }
    destruct ((if bool_decide (v = cur)
               then Remove.use_link_to "system" else mret ()) w1)
      as [[[]|e] w2]; cbn in Hcs1.
    + destruct (remove_tail_calls v w2) as [cs2 Hcs2].
      rewrite Hcs2, Hcs1. cbn. rewrite <-!(assoc_L (++)). cbn. by eauto.
    + cbn. rewrite Hcs1. cbn. rewrite <-!(assoc_L (++)). cbn. by eauto.
  - intros [e He]%reported_version_None.
    destruct (Shared.current_version w) as [r w1] eqn:Hcv.
    rewrite current_version_run in Hcv. injection Hcv as Hr <-.
    cbn in He. rewrite He. by eexists.
Qed.

Lemma remove_discovers_first_witness :
  (∃ cs, calls (Remove.remove "4.2.0" Sample.w0).2 =
         calls Sample.w0 ++ Popen ["node"; "-v"] :: cs)
  ∧ Spec.reported_version Sample.no_runtime = None
  ∧ ∃ e, Remove.remove "4.2.0" Sample.no_runtime =
         (Raise e, Spec.after Sample.no_runtime [Popen ["node"; "-v"]]
                     (fs Sample.no_runtime)).
Proof.
  split; [apply (remove_discovers_first Sample.w0 "4.2.0")|].
  split; [reflexivity|].
  apply (remove_discovers_first Sample.no_runtime "4.2.0"). reflexivity.
Defined.

(** ** The [remove] command *)

Lemma getopt_no_option (v : string) (rest : list string) :
  Str.startswith "-" v = false → Getopt.getopt (v :: rest) = inr ([], v :: rest).
Proof. intros H. cbn. by rewrite H. Qed.

(** What the command does with a first argument that is not an option:
    it looks [args[0]] up in the registry as it is. *)
Lemma parse_run w pfx v rest :
  Spec.prefix_is w pfx →
  Str.startswith "-" v = false →
  Remove.parse (v :: rest) w =
  let w1 := Spec.after w [Isdir (Spec.version_dir pfx v)] (fs w) in
  if FS.isdir w (Spec.version_dir pfx v) then Remove.remove v w1
  else (Ret (), put_stdout ("There is no such version installed." +:+ Remove.nl) w1).
Proof.
  intros Hpfx Hv. unfold Remove.parse. rewrite getopt_no_option by done.
  rewrite bind_unfold. cbn [Remove.parse_loop mret M_ret].
  rewrite bind_unfold, (run_version_exists w pfx Hpfx).
  by destruct (FS.isdir w _).
Qed.

(** C2.  A version with no directory under [versions]: [version_exists]
    is false, [link_to] raises [NoSuchVersionError] and the command
    prints that the version is not installed.  Each of them only looks
    at the directory: the file system, the Active Link included, is
    left as it was. *)
Theorem not_installed_no_mutation (w : world) (pfx v : string) (rest : list string) :
  Spec.prefix_is w pfx →
  Shared.valid_version_string v = true →
  FS.isdir w (Spec.version_dir pfx v) = false →
  let w1 := Spec.after w [Isdir (Spec.version_dir pfx v)] (fs w) in
  Shared.version_exists v w = (Ret false, w1)
  ∧ Shared.link_to v w =
      (Raise (NoSuchVersionError "there is no such version installed"), w1)
  ∧ Remove.parse (v :: rest) w =
      (Ret (), put_stdout ("There is no such version installed." +:+ Remove.nl) w1)
  ∧ fs w1 = fs w
  ∧ fs (put_stdout ("There is no such version installed." +:+ Remove.nl) w1) = fs w
  ∧ Forall (λ c, mutates c = false) [Isdir (Spec.version_dir pfx v)].
Proof.
  intros Hpfx Hv Hdir w1.
  assert (Shared.version_exists v w = (Ret false, w1)) as Hex.
  { by rewrite (run_version_exists w pfx Hpfx), Hdir. }
  split_and!; try done.
  - unfold Shared.link_to.
    rewrite bool_decide_eq_false_2 by by apply valid_version_string_not_system.
    by rewrite (bind_ret _ _ _ _ _ Hex).
  - rewrite (parse_run w pfx) by auto using valid_version_string_not_option.
    by rewrite Hdir.
  - by repeat constructor.
Qed.

Lemma not_installed_no_mutation_witness :
  let w1 := Spec.after Sample.w0
              [Isdir (Spec.version_dir "/opt/nodevers" "9.9.9")] (fs Sample.w0) in
  Shared.version_exists "9.9.9" Sample.w0 = (Ret false, w1)
  ∧ Shared.link_to "9.9.9" Sample.w0 =
      (Raise (NoSuchVersionError "there is no such version installed"), w1)
  ∧ Remove.parse ["9.9.9"] Sample.w0 =
      (Ret (), put_stdout ("There is no such version installed." +:+ Remove.nl) w1)
  ∧ fs w1 = fs Sample.w0
  ∧ fs (put_stdout ("There is no such version installed." +:+ Remove.nl) w1)
    = fs Sample.w0
  ∧ Forall (λ c, mutates c = false)
      [Isdir (Spec.version_dir "/opt/nodevers" "9.9.9")].
Proof.
  apply (not_installed_no_mutation Sample.w0 "/opt/nodevers" "9.9.9" []);
    reflexivity.
Defined.

(** C4, as the specification has it, fails: [abc] is not a version
    string, and the command looks it up in the registry all the same. *)
Lemma parse_looks_up_malformed :
  Shared.valid_version_string "abc" = false
  ∧ calls (Remove.parse ["abc"] Sample.w0).2
    = [Isdir "/opt/nodevers/versions/abc"].
Proof. split; vm_compute; reflexivity. Qed.

(** C4, amended.  The command does not check the form of its argument:
    whenever the first argument is not an option, accepted by
    [valid_version_string] or not, the first thing the command does is
    look it up in the registry, and it goes on to [remove] when a
    directory of that name is there. *)
Theorem parse_looks_up_unchecked (w : world) (pfx v : string) (rest : list string) :
  Spec.prefix_is w pfx →
  Str.startswith "-" v = false →
  let w1 := Spec.after w [Isdir (Spec.version_dir pfx v)] (fs w) in
  Shared.version_exists v w = (Ret (FS.isdir w (Spec.version_dir pfx v)), w1)
  ∧ Remove.parse (v :: rest) w =
      if FS.isdir w (Spec.version_dir pfx v) then Remove.remove v w1
      else (Ret (),
            put_stdout ("There is no such version installed." +:+ Remove.nl) w1).
Proof.
  intros Hpfx Hv w1. split.
  - apply (run_version_exists w pfx Hpfx).
  - by apply parse_run.
Qed.

Lemma parse_looks_up_unchecked_witness :
  Shared.valid_version_string "" = false
  ∧ let w1 := Spec.after Sample.w0
                [Isdir (Spec.version_dir "/opt/nodevers" "")] (fs Sample.w0) in
    Shared.version_exists "" Sample.w0
    = (Ret (FS.isdir Sample.w0 (Spec.version_dir "/opt/nodevers" "")), w1)
    ∧ Remove.parse [""] Sample.w0 =
        if FS.isdir Sample.w0 (Spec.version_dir "/opt/nodevers" "")
        then Remove.remove "" w1
        else (Ret (),
              put_stdout ("There is no such version installed." +:+ Remove.nl) w1).
Proof.
  split; [reflexivity|].
  apply (parse_looks_up_unchecked Sample.w0 "/opt/nodevers" "" []);
    reflexivity.
Defined.

(** ** Version strings with a newline *)

Lemma three_groups_chars (s : string) :
  Spec.three_groups s →
  Str.all (λ c, Str.is_digit c || bool_decide (c = "."%char)) s = true.
Proof.
  assert (∀ x, Spec.digits x →
            Str.all (λ c, Str.is_digit c || bool_decide (c = "."%char)) x = true) as Hd.
  { intros x [_ Hx]. revert Hx. apply str_all_impl. by intros c ->. }
  intros (a & b & c & Ha & Hb & Hc & ->).
  rewrite !str_all_app, (Hd a), (Hd b), (Hd c) by done. reflexivity.
Qed.

(** C3 fails on a version followed by a newline: [$] also matches just
    before a newline that ends the string, so [valid_version_string]
    accepts a string that is not three groups of digits. *)
Theorem valid_version_string_trailing_newline :
  Shared.valid_version_string ("5.10.2" +:+ Remove.nl) = true
  ∧ ¬ Spec.three_groups ("5.10.2" +:+ Remove.nl).
Proof.
  split; [reflexivity|]. intros H%three_groups_chars. vm_compute in H. done.
Qed.

(** ** The interpreter probe *)

Lemma python_items :
  Re.re_compile "Python (2\.[67]\.\d+)" =
  Some [Re.One (Re.Lit "P"); Re.One (Re.Lit "y"); Re.One (Re.Lit "t");
        Re.One (Re.Lit "h"); Re.One (Re.Lit "o"); Re.One (Re.Lit "n");
        Re.One (Re.Lit " "); Re.Open; Re.One (Re.Lit "2"); Re.One (Re.Lit ".");
        Re.One (Re.OneOf ["6"; "7"]%char); Re.One (Re.Lit "."); Re.Plus Re.Digit;
        Re.Close].
Proof. reflexivity. Qed.

Lemma strip_prefix_Some (p s r : string) :
  Str.strip_prefix p s = Some r ↔ s = p +:+ r.
Proof.
  revert s. induction p as [|a p IH]; intros s; cbn.
  { rewrite str_app_empty_l. split; [by intros [= ->] | by intros ->]. }
  destruct s as [|b s]; [by rewrite str_app_cons|].
  rewrite str_app_cons. case_bool_decide as Hab.
  - subst b. rewrite IH. split; [by intros -> | by intros [= ->]].
  - split; [done | intros [= ? _]; done].
Qed.

Lemma python_banner_inv (s : string) :
  Spec.python_2_6_or_2_7_banner s = true ↔
  ∃ minor d r,
    (minor = "6"%char ∨ minor = "7"%char) ∧ Str.is_digit d = true
    ∧ s = "Python 2." +:+ String minor (String "." (String d r)).
Proof.
  unfold Spec.python_2_6_or_2_7_banner. split.
  - destruct (Str.strip_prefix "Python 2." s) as [[|m [|dot [|d r]]]|] eqn:Hs;
      try done.
    apply strip_prefix_Some in Hs as ->.
    rewrite !andb_true_iff, orb_true_iff, !bool_decide_eq_true.
    intros [[Hm ->] Hd]. by exists m, d, r.
  - intros (m & d & r & Hm & Hd & ->).
    rewrite (proj2 (strip_prefix_Some _ _ _) eq_refl), Hd.
    by destruct Hm as [-> | ->].
Qed.

Lemma python_banner_match (s : string) :
  is_Some (Re.re_match "Python (2\.[67]\.\d+)" s) ↔
  Spec.python_2_6_or_2_7_banner s = true.
Proof.
  unfold Re.re_match. rewrite python_items. cbn [mbind option_bind].
  rewrite python_banner_inv.
  assert (∀ o : option (list nat),
            is_Some (o ≫= λ ms, Some {| Re.subject := s; Re.marks := ms |})
            ↔ is_Some o) as ->.
  { intros [o|]; cbn; split; by eauto. }
  repeat (rewrite run_One_Some || setoid_rewrite run_One_Some
          || setoid_rewrite run_Open_Some || setoid_rewrite run_Plus_Some
          || setoid_rewrite run_Close_Some).
  split.
  - intros (c1 & s1 & -> & ->%bool_decide_eq_true &
            c2 & s2 & -> & ->%bool_decide_eq_true &
            c3 & s3 & -> & ->%bool_decide_eq_true &
            c4 & s4 & -> & ->%bool_decide_eq_true &
            c5 & s5 & -> & ->%bool_decide_eq_true &
            c6 & s6 & -> & ->%bool_decide_eq_true &
            c7 & s7 & -> & ->%bool_decide_eq_true &
            c8 & s8 & -> & ->%bool_decide_eq_true &
            c9 & s9 & -> & ->%bool_decide_eq_true &
            m & s10 & -> & Hm%bool_decide_eq_true &
            c11 & s11 & -> & ->%bool_decide_eq_true &
            x & r & Hx & Hdx & -> & _).
    destruct x as [|d x]; [done|]. cbn in Hdx.
    apply andb_true_iff in Hdx as [Hd _].
    exists m, d, (x +:+ r). split_and!; try done.
    apply elem_of_cons in Hm as [->| Hm]; [by left|].
    apply elem_of_cons in Hm as [->| Hm]; [by right|].
    by apply elem_of_nil in Hm.
  - intros (m & d & r & Hm & Hd & ->).
    do 9 (eexists _, _; split; [reflexivity|]; split; [reflexivity|]).
    eexists m, _; split; [reflexivity|]; split.
    { apply bool_decide_eq_true. destruct Hm as [-> | ->]; set_solver. }
    eexists _, _; split; [reflexivity|]; split; [reflexivity|].
    exists (String d ""), r. cbn. rewrite Hd. by split_and!.
Qed.

Lemma try_python_run (w : world) (exe : string) :
  Shared.__try_python exe w =
  (Ret (Spec.usable_python w exe), Spec.after w [Popen [exe; "-V"]] (fs w)).
Proof.
  unfold Shared.__try_python, except_OSError, Spec.usable_python.
  rewrite bind_unfold. unfold subprocess_Popen. cbn [programs log].
  destruct (programs w [exe; "-V"]) as [o|]; [|done].
  pose proof (python_banner_match (err_stream o)) as Hb.
  destruct (Re.re_match _ (err_stream o)) as [m|].
  - by rewrite (proj1 Hb) by by eexists.
  - destruct (Spec.python_2_6_or_2_7_banner _); [|done].
    by destruct (proj2 Hb).
Qed.

(** C7.  [python()] asks for [python] first.  When that is usable it is
    the answer and [python2] is not run; otherwise [python2] is asked
    for, and is the answer when usable; when neither is,
    [MissingToolError] is raised and no name is returned. *)
Theorem python_first_match_wins (w : world) :
  Shared.python w =
  if Spec.usable_python w "python" then
    (Ret "python", Spec.after w [Popen ["python"; "-V"]] (fs w))
  else if Spec.usable_python w "python2" then
    (Ret "python2",
     Spec.after w [Popen ["python"; "-V"]; Popen ["python2"; "-V"]] (fs w))
  else
    (Raise (MissingToolError
              "python is either missing, newer than 2.x or older than 2.6"),
     Spec.after w [Popen ["python"; "-V"]; Popen ["python2"; "-V"]] (fs w)).
Proof.
  unfold Shared.python. rewrite bind_unfold, try_python_run.
  destruct (Spec.usable_python w "python"); [done|].
  rewrite bind_unfold, try_python_run.
  change (Spec.usable_python (Spec.after _ _ _) "python2")
    with (Spec.usable_python w "python2").
  destruct (Spec.usable_python w "python2"); by norm_world.
Qed.

(** ** The patch list *)

Lemma after_nil w : Spec.after w [] (fs w) = w.
Proof. destruct w. unfold Spec.after. cbn. by rewrite (right_id_L [] (++)). Qed.

Lemma isdir_listing w p : FS.isdir w p = true → is_Some (FS.listing w p).
Proof.
  unfold FS.isdir, FS.listing.
  destruct (FS.locate w p ≫= FS.stat (fs w)) as [[k []]|]; by eauto.
Qed.

Lemma get_patches_list_loop_run w dir names acc :
  Shared.get_patches_list_loop dir names acc w =
  (Ret (acc ++ filter (λ p, FS.isdir w p = false) (Path.join dir <$> names)),
   Spec.after w ((λ n, Isdir (Path.join dir n)) <$> names) (fs w)).
Proof.
  revert acc w. induction names as [|n names IH]; intros acc w.
  { cbn. by rewrite (right_id_L [] (++)), after_nil. }
  cbn [Shared.get_patches_list_loop]. rewrite bind_unfold. unfold os_path_isdir.
  rewrite IH, log_after, after_after, fs_after. cbn [fmap list_fmap app].
  change (FS.isdir (Spec.after w _ (fs w))) with (FS.isdir w).
  rewrite filter_cons. destruct (FS.isdir w (Path.join dir n)) eqn:Hd; cbn.
  - rewrite decide_False by done. done.
  - rewrite decide_True by done. by rewrite <-(assoc_L (++)).
Qed.

Lemma patch_files_listing w dir names :
  FS.listing w dir = Some names →
  Spec.patch_files w dir =
  filter (λ p, FS.isdir w p = false) (Path.join dir <$> names).
Proof. unfold Spec.patch_files. by intros ->. Qed.

(** C8.  With the global patch directory in place, [get_patches_list]
    lists it first (without asking whether it is there) and returns
    its entries that are not directories, followed by those of the
    directory of the version when that is a directory, and by nothing
    otherwise.  It changes nothing in the file system. *)
Theorem get_patches_list_global_first (w : world) (pfx v : string) :
  Spec.prefix_is w pfx →
  FS.isdir w (Spec.global_patch_dir pfx) = true →
  ∃ w',
    Shared.get_patches_list v w =
      (Ret (Spec.patch_files w (Spec.global_patch_dir pfx)
            ++ if FS.isdir w (Spec.version_patch_dir pfx v)
               then Spec.patch_files w (Spec.version_patch_dir pfx v)
               else []), w')
    ∧ fs w' = fs w
    ∧ ∃ cs, calls w' = calls w ++ Listdir (Spec.global_patch_dir pfx) :: cs.
Proof.
  intros Hpfx Hg. unfold Shared.get_patches_list.
  rewrite (bind_ret _ _ _ _ _ (run_get_patches_dir w pfx Hpfx)).
  rewrite (bind_ret _ _ _ _ _ (run_get_patches_dir w pfx Hpfx)).
  fold (Spec.global_patch_dir pfx). fold (Spec.version_patch_dir pfx v).
  destruct (isdir_listing _ _ Hg) as [gnames Hgl].
  rewrite bind_unfold. unfold os_listdir at 1. rewrite Hgl.
  rewrite bind_unfold, get_patches_list_loop_run.
  rewrite log_after, after_after, fs_after. cbn [app].
  change (FS.isdir (Spec.after w _ (fs w))) with (FS.isdir w).
  rewrite <-(patch_files_listing _ _ _ Hgl).
  rewrite bind_unfold. unfold os_path_isdir.
  rewrite log_after, after_after, fs_after.
  change (FS.isdir (Spec.after w _ (fs w))) with (FS.isdir w).
  destruct (FS.isdir w (Spec.version_patch_dir pfx v)) eqn:Hv.
  - destruct (isdir_listing _ _ Hv) as [vnames Hvl].
    rewrite bind_unfold. unfold os_listdir.
    change (FS.listing (Spec.after w _ (fs w))) with (FS.listing w).
    rewrite Hvl, get_patches_list_loop_run.
    rewrite log_after, !after_after, !fs_after.
    change (FS.isdir (Spec.after w _ (fs w))) with (FS.isdir w).
    rewrite <-(patch_files_listing _ _ _ Hvl).
    eexists. split; [reflexivity|]. split; [done|]. cbn. eauto.
  - eexists. split; [by rewrite (right_id_L [] (++))|]. split; [done|].
    cbn. eauto.
Qed.

Lemma get_patches_list_global_first_witness :
  ∃ w',
    Shared.get_patches_list "5.10.2" Sample.w0 =
      (Ret (Spec.patch_files Sample.w0 (Spec.global_patch_dir "/opt/nodevers")
            ++ if FS.isdir Sample.w0 (Spec.version_patch_dir "/opt/nodevers" "5.10.2")
               then Spec.patch_files Sample.w0
                      (Spec.version_patch_dir "/opt/nodevers" "5.10.2")
               else []), w')
    ∧ fs w' = fs Sample.w0
    ∧ ∃ cs, calls w' =
            calls Sample.w0 ++ Listdir (Spec.global_patch_dir "/opt/nodevers") :: cs.
Proof.
  apply (get_patches_list_global_first Sample.w0 "/opt/nodevers" "5.10.2");
    reflexivity.
Defined.

(** The patches of the sample installation: the global files, then the
    file of the version; the directory [old] is left out. *)
Example get_patches_list_sample :
  (Shared.get_patches_list "5.10.2" Sample.w0).1 =
  Ret ["/opt/nodevers/patches/global/b"; "/opt/nodevers/patches/global/a";
       "/opt/nodevers/patches/5.10.2/c"].
Proof. vm_compute. reflexivity. Qed.

(** Without a global patch directory the listing itself fails: there is
    no check before it. *)
Lemma get_patches_list_no_global (w : world) (pfx v : string) :
  Spec.prefix_is w pfx →
  FS.isdir w (Spec.global_patch_dir pfx) = false →
  Shared.get_patches_list v w =
  (Raise OSError, Spec.after w [Listdir (Spec.global_patch_dir pfx)] (fs w)).
Proof.
  intros Hpfx Hg. unfold Shared.get_patches_list.
  rewrite (bind_ret _ _ _ _ _ (run_get_patches_dir w pfx Hpfx)).
  rewrite (bind_ret _ _ _ _ _ (run_get_patches_dir w pfx Hpfx)).
  fold (Spec.global_patch_dir pfx).
  rewrite bind_unfold. unfold os_listdir.
  assert (FS.listing w (Spec.global_patch_dir pfx) = None) as ->; [|done].
  unfold FS.isdir in Hg. unfold FS.listing.
  by destruct (FS.locate w _ ≫= FS.stat (fs w)) as [[k []]|].
Qed.

(** ** [link_to] a version *)

Lemma lstat_delete_ne (m : gmap path node) (k k' : path) :
  k ≠ k' → FS.lstat (delete k m) k' = FS.lstat m k'.
Proof. intros Hne. destruct k'; [done|]. cbn. by apply lookup_delete_ne. Qed.

Lemma lstat_insert_ne (m : gmap path node) (k k' : path) (n : node) :
  k ≠ k' → FS.lstat (<[k := n]> m) k' = FS.lstat m k'.
Proof. intros Hne. destruct k'; [done|]. cbn. by apply lookup_insert_ne. Qed.

Lemma lstat_insert_eq (m : gmap path node) (k : path) (n : node) :
  k ≠ [] → FS.lstat (<[k := n]> m) k = Some n.
Proof. intros Hne. rewrite lstat_nonroot by done. apply lookup_insert_eq. Qed.

Lemma parent_snoc (k : path) (name : string) : Path.parent (k ++ [name]) = k.
Proof. apply removelast_last. Qed.

Lemma active_link_above w pfx :
  Path.resolve (cwd w) pfx ≠ Spec.active_link w pfx.
Proof.
  rewrite active_link_eq. intros H%(f_equal length).
  rewrite length_app in H. cbn in H. lia.
Qed.

Lemma stat_lstat (m : gmap path node) (k : path) :
  is_Some (FS.stat m k) → is_Some (FS.lstat m k).
Proof.
  unfold FS.stat. generalize FS.MAXSYMLINKS. intros [|fuel]; cbn;
    destruct (FS.lstat m k); try done; by intros []%is_Some_None.
Qed.

Lemma locate_version_dir w pfx v :
  Spec.plain v = true →
  FS.locate w (Spec.version_dir pfx v)
  = Some (Path.resolve (cwd w) pfx ++ ["versions"; v]).
Proof.
  intros Hv. unfold Spec.version_dir, Spec.versions_dir.
  rewrite locate_join, resolve_join by done. by rewrite <-(assoc_L (++)).
Qed.

(** In a tree, an installed version sits in the directory [versions] of
    a prefix that is a directory. *)
Lemma installed_prefix_dir w pfx v :
  Spec.tree_shaped (fs w) →
  Spec.plain v = true →
  FS.isdir w (Spec.version_dir pfx v) = true →
  FS.lstat (fs w) (Path.resolve (cwd w) pfx) = Some Dir.
Proof.
  intros Htree Hv Hdir. unfold FS.isdir in Hdir.
  rewrite locate_version_dir in Hdir by done. cbn [mbind option_bind] in Hdir.
  destruct (FS.stat (fs w) _) as [kn|] eqn:Hstat; [|done].
  destruct (stat_lstat (fs w) (Path.resolve (cwd w) pfx ++ ["versions"; v]))
    as [n Hn]; [by eexists|].
  rewrite lstat_nonroot in Hn by by destruct (Path.resolve _ _).
  apply Htree in Hn as [_ Hup].
  change ["versions"; v] with (["versions"] ++ [v]) in Hup.
  rewrite (assoc_L (++)), parent_snoc in Hup.
  rewrite lstat_nonroot in Hup by by destruct (Path.resolve _ _).
  apply Htree in Hup as [_ Hup]. by rewrite parent_snoc in Hup.
Qed.

(** One activation, from a state in which the prefix is a directory and
    the Active Link is not one. *)
Lemma link_to_version_run w pfx v :
  Spec.prefix_is w pfx →
  v ≠ "system" →
  FS.isdir w (Spec.version_dir pfx v) = true →
  FS.lstat (fs w) (Path.resolve (cwd w) pfx) = Some Dir →
  FS.lstat (fs w) (Spec.active_link w pfx) ≠ Some Dir →
  Shared.link_to v w =
  (Ret (),
   Spec.after w
     ([Isdir (Spec.version_dir pfx v); Lexists (Spec.bin_dir pfx)]
      ++ (if FS.lexists w (Spec.bin_dir pfx) then [Unlink (Spec.bin_dir pfx)] else [])
      ++ [Symlink (Spec.version_bin_dir pfx v) (Spec.bin_dir pfx)])
     (<[Spec.active_link w pfx := Link (Spec.version_bin_dir pfx v)]> (fs w))).
Proof.
  intros Hpfx Hv Hdir Hup Hlink. unfold Shared.link_to.
  rewrite bool_decide_eq_false_2 by done.
  rewrite bind_unfold, (run_version_exists w pfx Hpfx), Hdir.
  set (w1 := log _ w).
  assert (Spec.prefix_is w1 pfx) as Hpfx1 by by apply prefix_is_log.
  rewrite (bind_ret _ _ _ _ _ (run_get_bin_dir w1 pfx Hpfx1)).
  rewrite bind_unfold. unfold os_path_lexists.
  change (FS.lexists w1) with (FS.lexists w).
  set (w2 := log _ w1).
  assert (Spec.prefix_is w2 pfx) as Hpfx2 by by apply prefix_is_log.
  pose proof (active_link_nonroot w pfx) as Hne.
  pose proof (active_link_above w pfx) as Hab.
  assert (∀ w3 : world,
    Spec.prefix_is w3 pfx → cwd w3 = cwd w →
    FS.lstat (fs w3) (Spec.active_link w pfx) = None →
    FS.lstat (fs w3) (Path.resolve (cwd w) pfx) = Some Dir →
    (vd ← Shared.get_version_dir v;
     b'' ← Shared.get_bin_dir;
     os_symlink (Path.join vd "bin") b'') w3 =
    (Ret (), set_fs (<[Spec.active_link w pfx := Link (Spec.version_bin_dir pfx v)]>
                       (fs w3))
               (log (Symlink (Spec.version_bin_dir pfx v) (Spec.bin_dir pfx)) w3)))
    as Hsym.
  { intros w3 Hpfx3 Hcwd Hnone Hup3.
    rewrite (bind_ret _ _ _ _ _ (run_get_version_dir w3 pfx Hpfx3 v)).
    rewrite (bind_ret _ _ _ _ _ (run_get_bin_dir w3 pfx Hpfx3)).
    unfold os_symlink.
    change (FS.locate (log _ w3) (Spec.bin_dir pfx))
      with (FS.locate w3 (Spec.bin_dir pfx)).
    rewrite locate_bin_dir. unfold Spec.active_link at 1 2 3. rewrite Hcwd.
    fold (Spec.active_link w pfx). cbn [fs log]. rewrite Hnone.
    rewrite active_link_eq, parent_snoc, Hup3. by rewrite <-active_link_eq. }
  rewrite lexists_bin_dir.
  destruct (FS.lstat (fs w) (Spec.active_link w pfx)) as [n|] eqn:Hl.
  - rewrite bool_decide_eq_true_2 by by eexists.
    rewrite bind_unfold.
    rewrite (bind_ret _ _ _ _ _ (run_get_bin_dir w2 pfx Hpfx2)).
    unfold os_unlink.
    change (FS.locate (log _ w2) (Spec.bin_dir pfx))
      with (FS.locate w (Spec.bin_dir pfx)).
    rewrite locate_bin_dir. cbn [fs log]. change (fs w2) with (fs w). rewrite Hl.
    destruct n as [| |t]; [|done|];
      (lazy beta iota; rewrite Hsym;
       [ cbn [fs set_fs]; rewrite insert_delete_eq; subst w2 w1; by norm_world
       | by apply prefix_is_set_fs, prefix_is_log
       | done
       | cbn [fs set_fs]; rewrite lstat_nonroot by done; apply lookup_delete_eq
       | cbn [fs set_fs]; by rewrite lstat_delete_ne ]).
  - rewrite bool_decide_eq_false_2 by by intros [].
    rewrite bind_unfold. cbn [mret M_ret]. rewrite Hsym; try done.
    subst w2 w1. by norm_world.
Qed.

Lemma stat_real_dir (m : gmap path node) (k : path) :
  FS.lstat m k = Some Dir → FS.stat m k = Some (k, Dir).
Proof. intros H. unfold FS.stat, FS.MAXSYMLINKS. cbn [FS.follow]. by rewrite H. Qed.

(** A version whose directory is a real one is still installed after the
    Active Link has been set. *)
Lemma real_dir_stays_installed w pfx v cs (n : node) :
  Spec.plain v = true →
  FS.lstat (fs w) (Path.resolve (cwd w) pfx ++ ["versions"; v]) = Some Dir →
  FS.isdir (Spec.after w cs (<[Spec.active_link w pfx := n]> (fs w)))
    (Spec.version_dir pfx v) = true.
Proof.
  intros Hv Hd. unfold FS.isdir. rewrite locate_version_dir by done.
  cbn [mbind option_bind fs cwd Spec.after]. rewrite stat_real_dir; [done|].
  rewrite lstat_insert_ne; [done|].
  rewrite active_link_eq. intros H%(f_equal length).
  rewrite !length_app in H. cbn in H. lia.
Qed.

(** C5.  Activating an installed version [v1], from a state in which
    the Active Link is a link or absent: the link is looked for, removed
    when it is there, and only then created anew, pointing at the [bin]
    of [v1].  Activating an installed [v2] next removes that link before
    it creates the one to the [bin] of [v2], which is then what the
    Active Link is: the file system differs from the first one in that
    entry alone. *)
Theorem link_to_switches (w : world) (pfx v1 : string) :
  Spec.prefix_is w pfx →
  Spec.tree_shaped (fs w) →
  Shared.valid_version_string v1 = true →
  FS.isdir w (Spec.version_dir pfx v1) = true →
  FS.lstat (fs w) (Spec.active_link w pfx) ≠ Some Dir →
  ∃ w1,
    Shared.link_to v1 w = (Ret (), w1)
    ∧ calls w1 =
        calls w ++ [Isdir (Spec.version_dir pfx v1); Lexists (Spec.bin_dir pfx)]
        ++ (if FS.lexists w (Spec.bin_dir pfx)
            then [Unlink (Spec.bin_dir pfx)] else [])
        ++ [Symlink (Spec.version_bin_dir pfx v1) (Spec.bin_dir pfx)]
    ∧ fs w1 = <[Spec.active_link w pfx := Link (Spec.version_bin_dir pfx v1)]> (fs w)
    ∧ ∀ v2,
        Shared.valid_version_string v2 = true →
        FS.isdir w1 (Spec.version_dir pfx v2) = true →
        ∃ w2,
          Shared.link_to v2 w1 = (Ret (), w2)
          ∧ calls w2 =
              calls w1 ++ [Isdir (Spec.version_dir pfx v2);
                           Lexists (Spec.bin_dir pfx);
                           Unlink (Spec.bin_dir pfx);
                           Symlink (Spec.version_bin_dir pfx v2) (Spec.bin_dir pfx)]
          ∧ fs w2 =
              <[Spec.active_link w pfx := Link (Spec.version_bin_dir pfx v2)]> (fs w)
          ∧ FS.lstat (fs w2) (Spec.active_link w pfx)
            = Some (Link (Spec.version_bin_dir pfx v2)).
Proof.
  intros Hpfx Htree Hv1 Hd1 Hlink.
  pose proof (installed_prefix_dir w pfx v1 Htree
                (valid_version_string_plain _ Hv1) Hd1) as Hup.
  pose proof (active_link_nonroot w pfx) as Hne.
  pose proof (active_link_above w pfx) as Hab.
  eexists. split.
  { apply (link_to_version_run w pfx v1); try done.
    by apply valid_version_string_not_system. }
  split; [reflexivity|]. split; [reflexivity|].
  intros v2 Hv2 Hd2.
  set (m1 := <[Spec.active_link w pfx := Link (Spec.version_bin_dir pfx v1)]> (fs w)).
  set (w1 := Spec.after w _ m1) in *.
  assert (FS.lstat m1 (Spec.active_link w pfx)
          = Some (Link (Spec.version_bin_dir pfx v1))) as Hl1
    by by apply lstat_insert_eq.
  eexists. split.
  { rewrite (link_to_version_run w1 pfx v2); try done.
    - by apply prefix_is_after.
    - by apply valid_version_string_not_system.
    - change (FS.lstat (fs w1) (Path.resolve (cwd w1) pfx))
        with (FS.lstat m1 (Path.resolve (cwd w) pfx)).
      subst m1. by rewrite lstat_insert_ne.
    - change (FS.lstat (fs w1) (Spec.active_link w1 pfx))
        with (FS.lstat m1 (Spec.active_link w pfx)).
      by rewrite Hl1. }
  assert (FS.lexists w1 (Spec.bin_dir pfx) = true) as ->.
  { rewrite lexists_bin_dir.
    change (FS.lstat (fs w1) (Spec.active_link w1 pfx))
      with (FS.lstat m1 (Spec.active_link w pfx)).
    rewrite Hl1. apply bool_decide_eq_true. by eexists. }
  change (Spec.active_link w1 pfx) with (Spec.active_link w pfx).
  change (fs w1) with m1. subst m1. rewrite insert_insert_eq.
  split; [done|]. split; [done|]. by apply lstat_insert_eq.
Qed.


Lemma sample_tree_shaped : Spec.tree_shaped Sample.tree.
Proof.
  unfold Spec.tree_shaped. apply (bool_decide_unpack _). vm_compute. exact I.
Defined.

Lemma link_to_switches_witness :
  ∃ w1,
    Shared.link_to "4.2.0" Sample.w0 = (Ret (), w1)
    ∧ calls w1 =
        calls Sample.w0
        ++ [Isdir (Spec.version_dir "/opt/nodevers" "4.2.0");
            Lexists (Spec.bin_dir "/opt/nodevers")]
        ++ (if FS.lexists Sample.w0 (Spec.bin_dir "/opt/nodevers")
            then [Unlink (Spec.bin_dir "/opt/nodevers")] else [])
        ++ [Symlink (Spec.version_bin_dir "/opt/nodevers" "4.2.0")
              (Spec.bin_dir "/opt/nodevers")]
    ∧ fs w1 =
        <[Spec.active_link Sample.w0 "/opt/nodevers" :=
            Link (Spec.version_bin_dir "/opt/nodevers" "4.2.0")]> (fs Sample.w0)
    ∧ ∀ v2,
        Shared.valid_version_string v2 = true →
        FS.isdir w1 (Spec.version_dir "/opt/nodevers" v2) = true →
        ∃ w2,
          Shared.link_to v2 w1 = (Ret (), w2)
          ∧ calls w2 =
              calls w1 ++ [Isdir (Spec.version_dir "/opt/nodevers" v2);
                           Lexists (Spec.bin_dir "/opt/nodevers");
                           Unlink (Spec.bin_dir "/opt/nodevers");
                           Symlink (Spec.version_bin_dir "/opt/nodevers" v2)
                             (Spec.bin_dir "/opt/nodevers")]
          ∧ fs w2 =
              <[Spec.active_link Sample.w0 "/opt/nodevers" :=
                  Link (Spec.version_bin_dir "/opt/nodevers" v2)]> (fs Sample.w0)
          ∧ FS.lstat (fs w2) (Spec.active_link Sample.w0 "/opt/nodevers")
            = Some (Link (Spec.version_bin_dir "/opt/nodevers" v2)).
Proof.
  apply (link_to_switches Sample.w0 "/opt/nodevers" "4.2.0").
  - reflexivity.
  - exact sample_tree_shaped.
  - reflexivity.
  - reflexivity.
  - vm_compute; discriminate.
Defined.

(** Activating [4.2.0] and then [5.10.2] in the sample installation. *)
Example link_to_twice_sample :
  let r := (Shared.link_to "4.2.0";; Shared.link_to "5.10.2") Sample.w0 in
  r.1 = Ret ()
  ∧ fs r.2 !! ["opt"; "nodevers"; "bin"]
    = Some (Link "/opt/nodevers/versions/5.10.2/bin")
  ∧ calls r.2 =
      [Isdir "/opt/nodevers/versions/4.2.0"; Lexists "/opt/nodevers/bin";
       Unlink "/opt/nodevers/bin";
       Symlink "/opt/nodevers/versions/4.2.0/bin" "/opt/nodevers/bin";
       Isdir "/opt/nodevers/versions/5.10.2"; Lexists "/opt/nodevers/bin";
       Unlink "/opt/nodevers/bin";
       Symlink "/opt/nodevers/versions/5.10.2/bin" "/opt/nodevers/bin"].
Proof. by vm_compute. Qed.

(** ** Initialising a prefix *)

Lemma resolve_join_walk (cwd : path) (a b : string) :
  Str.startswith "/" b = false →
  Path.resolve cwd (Path.join a b)
  = Path.walk (Path.resolve cwd a) (Path.split_slash b).
Proof.
  intros Hst. unfold Path.join. rewrite Hst. case_bool_decide as Ha; cbn [orb].
  { subst a. rewrite str_app_empty_l. unfold Path.resolve. by rewrite Hst. }
  destruct (Str.endswith "/" a) eqn:Hend.
  - apply endswith_slash in Hend as (a' & ->). unfold Path.resolve.
    rewrite startswith_app by done.
    assert (Path.split_slash (a' +:+ "/") = Path.split_slash a' ++ [""]) as Hs
      by apply (split_slash_app a' "").
    by rewrite str_app_assoc, split_slash_app, Hs, !walk_app.
  - unfold Path.resolve. rewrite startswith_app by done.
    by rewrite split_slash_app, walk_app.
Qed.

Lemma locate_patches_global w p :
  FS.locate w (Path.join p (Path.join "patches" "global"))
  = Some (Path.resolve (cwd w) p ++ ["patches"; "global"]).
Proof.
  unfold FS.locate. rewrite bool_decide_eq_false_2 by by apply join_nonempty.
  rewrite resolve_join_walk by reflexivity.
  change (Path.split_slash (Path.join "patches" "global"))
    with ["patches"; "global"].
  change (Path.walk ?k ["patches"; "global"]) with ((k ++ ["patches"]) ++ ["global"]).
  by rewrite <-(assoc_L (++)).
Qed.

Section Mkdirs.

Implicit Types (m : gmap path node) (base : path) (names : list string).

(** A successful [mkdirs] only adds directories, all of them on the way
    to the last one, which it adds. *)
Lemma mkdirs_ok m base names m' :
  FS.mkdirs m base names = (true, m') →
  FS.lstat m' (base ++ names) = Some Dir
  ∧ m ⊆ m'
  ∧ ∀ k, is_Some (m' !! k) →
         is_Some (m !! k)
         ∨ (m' !! k = Some Dir ∧ base `prefix_of` k ∧ k ≠ base
            ∧ k `prefix_of` base ++ names).
Proof.
  revert m base. induction names as [|n rest IH]; intros m base; [done|].
  assert (base ++ [n] ≠ []) as Hne by by destruct base.
  assert (∀ m0, FS.lstat m0 (base ++ [n]) = m0 !! (base ++ [n])) as Hl
    by (intros; by apply lstat_nonroot).
  assert (base ++ [n] ≠ base) as Hnb.
  { intros H%(f_equal length). rewrite length_app in H. cbn in H. lia. }
  assert (base `prefix_of` base ++ [n]) as Hpre by by eexists.
  destruct rest as [|n' rest].
  - cbn [FS.mkdirs]. rewrite Hl.
    destruct (m !! (base ++ [n])) eqn:Hm; [done|]. intros [= <-].
    split_and!.
    + rewrite Hl. apply lookup_insert_eq.
    + by apply insert_subseteq.
    + intros k Hk. destruct (decide (k = base ++ [n])) as [->|Hkn].
      * right. by rewrite lookup_insert_eq.
      * left. by rewrite lookup_insert_ne in Hk.
  - change (FS.mkdirs m base (n :: n' :: rest))
      with (match FS.lstat m (base ++ [n]) with
            | None => FS.mkdirs (<[base ++ [n] := Dir]> m) (base ++ [n]) (n' :: rest)
            | Some Dir => FS.mkdirs m (base ++ [n]) (n' :: rest)
            | Some _ => (false, m)
            end).
    rewrite Hl.
    assert (base ++ n :: n' :: rest = (base ++ [n]) ++ n' :: rest) as ->
      by by rewrite <-(assoc_L (++)).
    destruct (m !! (base ++ [n])) as [[]|] eqn:Hm; try done.
    + intros (Hleaf & Hsub & Hnew)%IH. split_and!; try done.
      intros k Hk. destruct (Hnew k Hk) as [?|(Hd & Hp & Hkb & Hq)]; [by left|].
      right. split_and!; try done.
      * by etrans.
      * intros ->. apply Hkb. by apply (anti_symm prefix).
    + intros (Hleaf & Hsub & Hnew)%IH. split_and!; try done.
      * etrans; [|exact Hsub]. by apply insert_subseteq.
      * intros k Hk. destruct (Hnew k Hk) as [Hin|(Hd & Hp & Hkb & Hq)].
        -- destruct (decide (k = base ++ [n])) as [->|Hkn].
           ++ right. split_and!; try done.
              ** eapply lookup_weaken; [|exact Hsub]. apply lookup_insert_eq.
              ** by apply prefix_app_r.
           ++ left. by rewrite lookup_insert_ne in Hin.
        -- right. split_and!; try done.
           ++ by etrans.
           ++ intros ->. apply Hkb. by apply (anti_symm prefix).
Qed.

End Mkdirs.

Lemma os_makedirs_ok w p k w' :
  FS.locate w p = Some k →
  os_makedirs p w = (Ret (), w') →
  w' = Spec.after w [Makedirs p] (fs w')
  ∧ FS.lstat (fs w') k = Some Dir
  ∧ fs w ⊆ fs w'
  ∧ ∀ k', is_Some (fs w' !! k') →
          is_Some (fs w !! k')
          ∨ (fs w' !! k' = Some Dir ∧ k' ≠ [] ∧ k' `prefix_of` k).
Proof.
  intros Hk. unfold os_makedirs.
  change (FS.locate (log _ w) p) with (FS.locate w p). rewrite Hk. cbn [fs log].
  destruct (FS.mkdirs (fs w) [] k) as [[] m] eqn:Hmk; [|done].
  intros [= <-]. apply mkdirs_ok in Hmk as (Hleaf & Hsub & Hnew).
  split_and!; try done.
  intros k' Hk'. destruct (Hnew k' Hk') as [?|(? & ? & ? & ?)]; by auto.
Qed.

Lemma lstat_weaken (m m' : gmap path node) (k : path) (n : node) :
  m ⊆ m' → FS.lstat m k = Some n → FS.lstat m' k = Some n.
Proof. intros Hsub. destruct k; [done|]. cbn. intros H. by eapply lookup_weaken. Qed.

Lemma isdir_real_dir w p k :
  FS.locate w p = Some k → FS.lstat (fs w) k = Some Dir → FS.isdir w p = true.
Proof.
  intros Hk Hd. unfold FS.isdir. rewrite Hk. cbn [mbind option_bind].
  by rewrite (stat_real_dir _ _ Hd).
Qed.

Lemma mknodevers_prefix_loop_ok w path w' :
  Shared.mknodevers_prefix_loop path Shared.dirs w = (Ret (), w') →
  w' = Spec.after w
         [Makedirs (Path.join path "versions"); Makedirs (Path.join path "tmp");
          Makedirs (Path.join path "patches");
          Makedirs (Path.join path (Path.join "patches" "global"))] (fs w')
  ∧ Forall (λ k, FS.lstat (fs w') k = Some Dir)
      (Spec.layout (Path.resolve (cwd w) path))
  ∧ fs w ⊆ fs w'
  ∧ ∀ k, is_Some (fs w' !! k) →
         is_Some (fs w !! k)
         ∨ (k ≠ [] ∧ List.Exists (λ l, k `prefix_of` l)
                        (Spec.layout (Path.resolve (cwd w) path))).
Proof.
  unfold Shared.dirs. cbn [Shared.mknodevers_prefix_loop]. set (kp := Path.resolve _ _).
  rewrite bind_unfold.
  destruct (os_makedirs _ w) as [[[]|e] w1] eqn:H1; [|done].
  apply (os_makedirs_ok w _ (kp ++ ["versions"])) in H1
    as (Hw1 & Hd1 & Hs1 & Hn1); [|by apply locate_join].
  rewrite bind_unfold.
  destruct (os_makedirs _ w1) as [[[]|e] w2] eqn:H2; [|done].
  apply (os_makedirs_ok w1 _ (kp ++ ["tmp"])) in H2
    as (Hw2 & Hd2 & Hs2 & Hn2); [|by rewrite Hw1; apply locate_join].
  rewrite bind_unfold.
  destruct (os_makedirs _ w2) as [[[]|e] w3] eqn:H3; [|done].
  apply (os_makedirs_ok w2 _ (kp ++ ["patches"])) in H3
    as (Hw3 & Hd3 & Hs3 & Hn3); [|by rewrite Hw2, Hw1; apply locate_join].
  rewrite bind_unfold.
  destruct (os_makedirs _ w3) as [[[]|e] w4] eqn:H4; [|done].
  apply (os_makedirs_ok w3 _ (kp ++ ["patches"; "global"])) in H4
    as (Hw4 & Hd4 & Hs4 & Hn4);
    [|by rewrite Hw3, Hw2, Hw1; apply locate_patches_global].
  intros [= <-]. split_and!.
  - rewrite Hw4 at 1. rewrite Hw3 at 1. rewrite Hw2 at 1. rewrite Hw1 at 1.
    by rewrite !after_after.
  - unfold Spec.layout. repeat apply Forall_cons_2; try apply Forall_nil_2; try done.
    + by do 3 (eapply lstat_weaken; [eassumption|]).
    + by do 2 (eapply lstat_weaken; [eassumption|]).
    + by eapply lstat_weaken.
  - by repeat (etrans; [eassumption|]).
  - intros k Hk. unfold Spec.layout.
    destruct (Hn4 k Hk) as [Hk3|(_ & ? & ?)];
      [|right; split; [done|]; do 3 apply Exists_cons_tl; by apply Exists_cons_hd].
    destruct (Hn3 k Hk3) as [Hk2|(_ & ? & ?)];
      [|right; split; [done|]; do 2 apply Exists_cons_tl; by apply Exists_cons_hd].
    destruct (Hn2 k Hk2) as [Hk1|(_ & ? & ?)];
      [|right; split; [done|]; do 1 apply Exists_cons_tl; by apply Exists_cons_hd].
    destruct (Hn1 k Hk1) as [Hk0|(_ & ? & ?)];
      [by left|right; split; [done|]; by apply Exists_cons_hd].
Qed.

Lemma valid_nodevers_prefix_layout w path :
  Forall (λ k, FS.lstat (fs w) k = Some Dir)
    (Spec.layout (Path.resolve (cwd w) path)) →
  (Shared.valid_nodevers_prefix path w).1 = Ret true.
Proof.
  unfold Spec.layout. rewrite !Forall_cons. intros (H1 & H2 & H3 & H4 & _).
  unfold Shared.valid_nodevers_prefix, Shared.dirs.
  cbn [Shared.valid_nodevers_prefix_loop].
  rewrite bind_unfold. unfold os_path_isdir at 1.
  rewrite (isdir_real_dir w _ _ (locate_join w path "versions" eq_refl) H1).
  cbn [negb]. rewrite bind_unfold. unfold os_path_isdir at 1.
  change (FS.isdir (log _ w)) with (FS.isdir w).
  rewrite (isdir_real_dir w _ _ (locate_join w path "tmp" eq_refl) H2).
  cbn [negb]. rewrite bind_unfold. unfold os_path_isdir at 1.
  change (FS.isdir (log _ (log _ w))) with (FS.isdir w).
  rewrite (isdir_real_dir w _ _ (locate_join w path "patches" eq_refl) H3).
  cbn [negb]. rewrite bind_unfold. unfold os_path_isdir at 1.
  change (FS.isdir (log _ (log _ (log _ w)))) with (FS.isdir w).
  rewrite (isdir_real_dir w _ _ (locate_patches_global w path) H4).
  reflexivity.
Qed.

Lemma prune_lookup_below (m : gmap path node) (k k' : path) :
  k `prefix_of` k' → FS.prune k m !! k' = None.
Proof.
  intros Hpre. unfold FS.prune. apply map_lookup_filter_None. right.
  intros n _ Hn. by apply Hn.
Qed.

Lemma between_layout (kp k : path) :
  kp `prefix_of` k → k ≠ kp → k ≠ [] →
  List.Exists (λ l, k `prefix_of` l) (Spec.layout kp) → k ∈ Spec.layout kp.
Proof.
  intros [l ->] Hne _ Hex. unfold Spec.layout in *.
  assert (l ≠ []) as Hl by (intros ->; by rewrite (right_id_L [] (++)) in Hne).
  rewrite !Exists_cons, Exists_nil in Hex.
  assert (∀ x, l `prefix_of` [x] → l = [x]) as H1.
  { intros x [l' Hx]. destruct l as [|y [|z l]]; [done| |done].
    by injection Hx as ->. }
  assert (∀ x y, l `prefix_of` [x; y] → l = [x] ∨ l = [x; y]) as H2.
  { intros x y [l' Hx]. destruct l as [|a [|b [|c l]]]; [done| | |done].
    - injection Hx as ->. by left.
    - injection Hx as -> ->. by right. }
  destruct Hex as [H|[H|[H|[H|[]]]]]; apply prefix_app_inv in H.
  - rewrite (H1 _ H). set_solver.
  - rewrite (H1 _ H). set_solver.
  - rewrite (H1 _ H). set_solver.
  - destruct (H2 _ _ H) as [-> | ->]; set_solver.
Qed.

(** X23.  What [mknodevers_prefix] has done when it returns: asked whether the
    prefix exists, removed its tree when it does, and only then created
    the four directories, which makes the prefix valid.  When the tree
    was removed, the four directories are all there is below the
    prefix. *)
Theorem mknodevers_prefix_ok (w : world) (path : string) (w' : world) :
  Shared.mknodevers_prefix path w = (Ret (), w') →
  calls w' =
    calls w ++ Exists path :: (if FS.exists_ w path then [Rmtree path] else [])
    ++ [Makedirs (Path.join path "versions"); Makedirs (Path.join path "tmp");
        Makedirs (Path.join path "patches");
        Makedirs (Path.join path (Path.join "patches" "global"))]
  ∧ (Shared.valid_nodevers_prefix path w').1 = Ret true
  ∧ (FS.exists_ w path = true →
     ∀ k, Path.resolve (cwd w) path `prefix_of` k → k ≠ Path.resolve (cwd w) path →
          (is_Some (fs w' !! k) ↔ k ∈ Spec.layout (Path.resolve (cwd w) path))).
Proof.
  unfold Shared.mknodevers_prefix. rewrite bind_unfold. unfold os_path_exists.
  set (w0 := log (Exists path) w). set (kp := Path.resolve (cwd w) path).
  destruct (FS.exists_ w path) eqn:He.
  - rewrite bind_unfold. unfold shutil_rmtree.
    change (FS.locate (log _ w0) path) with (FS.locate w path).
    unfold FS.locate. case_bool_decide as Hp; [done|]. fold kp.
    cbn [fs log]. change (fs w0) with (fs w).
    destruct (FS.lstat (fs w) kp) as [[]|]; try done.
    case_bool_decide as Hroot; [done|].
    destruct (Path.ends_in_dot path); [done|].
    set (w1 := set_fs _ _).
    intros (Hw' & Hdirs & Hsub & Hnew)%mknodevers_prefix_loop_ok.
    change (cwd w1) with (cwd w) in Hdirs, Hnew. fold kp in Hdirs, Hnew.
    split_and!.
    + rewrite Hw'. subst w1 w0. cbn. by rewrite <-!(assoc_L (++)).
    + apply valid_nodevers_prefix_layout.
      replace (cwd w') with (cwd w) by by rewrite Hw'. done.
    + intros _ k Hk Hne. split.
      * intros Hin. destruct (Hnew k Hin) as [Hold|[Hk0 Hex]].
        { change (fs w1) with (FS.prune kp (fs w)) in Hold.
          rewrite prune_lookup_below in Hold by done. by destruct Hold. }
        by apply between_layout.
      * intros Hin. rewrite Forall_forall in Hdirs.
        apply Hdirs in Hin.
        rewrite lstat_nonroot in Hin; [by eexists|].
        intros ->. by apply prefix_nil_inv in Hk.
  - rewrite bind_unfold. cbn [mret M_ret].
    intros (Hw' & Hdirs & Hsub & Hnew)%mknodevers_prefix_loop_ok.
    change (cwd w0) with (cwd w) in Hdirs. fold kp in Hdirs.
    split_and!; [|..|done].
    + rewrite Hw'. subst w0. cbn. by rewrite <-!(assoc_L (++)).
    + apply valid_nodevers_prefix_layout.
      replace (cwd w') with (cwd w) by by rewrite Hw'. done.
Qed.

Lemma mknodevers_prefix_ok_witness :
  let r := Shared.mknodevers_prefix "/opt/nodevers" Sample.w0 in
  r = (Ret (), r.2)
  ∧ (Shared.valid_nodevers_prefix "/opt/nodevers" r.2).1 = Ret true.
Proof.
  intros r.
  assert (r = (Ret (), r.2)) as H.
  { rewrite (surjective_pairing r) at 1. by f_equal. }
  split; [exact H|].
  by apply (mknodevers_prefix_ok Sample.w0 "/opt/nodevers" r.2 H).
Defined.

(** C9 fails when the prefix is there but is not a directory.  In the
    sample installation [/opt/nodevers/patches/global/a] is a regular
    file: [os.path.exists] is true of it, [shutil.rmtree] refuses it,
    and [mknodevers_prefix] raises with the file still in place and none
    of the four directories made. *)
Theorem mknodevers_prefix_keeps_file :
  FS.exists_ Sample.w0 Sample.a_file = true
  ∧ (Shared.mknodevers_prefix Sample.a_file Sample.w0).1 = Raise OSError
  ∧ calls (Shared.mknodevers_prefix Sample.a_file Sample.w0).2
    = [Exists Sample.a_file; Rmtree Sample.a_file]
  ∧ fs (Shared.mknodevers_prefix Sample.a_file Sample.w0).2
      !! ["opt"; "nodevers"; "patches"; "global"; "a"] = Some File
  ∧ fs (Shared.mknodevers_prefix Sample.a_file Sample.w0).2 = fs Sample.w0.
Proof.
  split; [vm_compute; reflexivity|].
  split; [vm_compute; reflexivity|].
  split; [vm_compute; reflexivity|].
  split; [vm_compute; reflexivity|].
  reflexivity.
Qed.

(** * Further properties *)

(** ** The build tool probe *)

Lemma make_items :
  Re.re_compile "GNU [Mm]ake" =
  Some [Re.One (Re.Lit "G"); Re.One (Re.Lit "N"); Re.One (Re.Lit "U");
        Re.One (Re.Lit " "); Re.One (Re.OneOf ["M"; "m"]%char);
        Re.One (Re.Lit "a"); Re.One (Re.Lit "k"); Re.One (Re.Lit "e")].
Proof. reflexivity. Qed.

Lemma make_banner_inv (s : string) :
  Spec.gnu_make_banner s = true ↔
  ∃ m r, (m = "M"%char ∨ m = "m"%char) ∧ s = "GNU " +:+ String m ("ake" +:+ r).
Proof.
  unfold Spec.gnu_make_banner. split.
  - destruct (Str.strip_prefix "GNU " s) as [[|m r]|] eqn:Hs; try done.
    apply strip_prefix_Some in Hs as ->.
    destruct (Str.strip_prefix "ake" r) as [r'|] eqn:Hr;
      [|by rewrite andb_false_r].
    apply strip_prefix_Some in Hr as ->.
    rewrite andb_true_r, orb_true_iff, !bool_decide_eq_true.
    intros Hm. by exists m, r'.
  - intros (m & r & Hm & ->).
    rewrite (proj2 (strip_prefix_Some _ _ _) eq_refl).
    rewrite (proj2 (strip_prefix_Some "ake" _ r) eq_refl).
    by destruct Hm as [-> | ->].
Qed.

Lemma make_banner_match (s : string) :
  is_Some (Re.re_match "GNU [Mm]ake" s) ↔ Spec.gnu_make_banner s = true.
Proof.
  unfold Re.re_match. rewrite make_items. cbn [mbind option_bind].
  rewrite make_banner_inv.
  assert (∀ o : option (list nat),
            is_Some (o ≫= λ ms, Some {| Re.subject := s; Re.marks := ms |})
            ↔ is_Some o) as ->.
  { intros [o|]; cbn; split; by eauto. }
  repeat (rewrite run_One_Some || setoid_rewrite run_One_Some).
  split.
  - intros (c1 & s1 & -> & ->%bool_decide_eq_true &
            c2 & s2 & -> & ->%bool_decide_eq_true &
            c3 & s3 & -> & ->%bool_decide_eq_true &
            c4 & s4 & -> & ->%bool_decide_eq_true &
            m & s5 & -> & Hm%bool_decide_eq_true &
            c6 & s6 & -> & ->%bool_decide_eq_true &
            c7 & s7 & -> & ->%bool_decide_eq_true &
            c8 & s8 & -> & ->%bool_decide_eq_true & _).
    exists m, s8. split; [|done].
    apply elem_of_cons in Hm as [->| Hm]; [by left|].
    apply elem_of_cons in Hm as [->| Hm]; [by right|].
    by apply elem_of_nil in Hm.
  - intros (m & r & Hm & ->).
    do 4 (eexists _, _; split; [reflexivity|]; split; [reflexivity|]).
    eexists m, _; split; [reflexivity|]; split.
    { apply bool_decide_eq_true. destruct Hm as [-> | ->]; set_solver. }
    do 3 (eexists _, _; split; [reflexivity|]; split; [reflexivity|]).
    apply run_nil_Some.
Qed.

Lemma try_make_run (w : world) (exe : string) :
  Shared.__try_make exe w =
  (Ret (Spec.usable_make w exe), Spec.after w [Popen [exe; "-v"]] (fs w)).
Proof.
  unfold Shared.__try_make, except_OSError, Spec.usable_make.
  rewrite bind_unfold. unfold subprocess_Popen. cbn [programs log].
  destruct (programs w [exe; "-v"]) as [o|]; [|done].
  pose proof (make_banner_match (out_stream o)) as Hb.
  destruct (Re.re_match _ (out_stream o)) as [m|].
  - by rewrite (proj1 Hb) by by eexists.
  - destruct (Spec.gnu_make_banner _); [|done].
    by destruct (proj2 Hb).
Qed.

(** X1.  [gmake()] asks for [make] first and for [gmake] only when
    [make] is not usable; a candidate is usable when it runs and its
    output starts with [GNU make] or [GNU Make].  When neither is,
    [MissingToolError] is raised.  Nothing but the one or two child
    processes is touched. *)
Theorem gmake_first_match_wins (w : world) :
  Shared.gmake w =
  if Spec.usable_make w "make" then
    (Ret "make", Spec.after w [Popen ["make"; "-v"]] (fs w))
  else if Spec.usable_make w "gmake" then
    (Ret "gmake", Spec.after w [Popen ["make"; "-v"]; Popen ["gmake"; "-v"]] (fs w))
  else
    (Raise (MissingToolError "make is either missing or not GNU make"),
     Spec.after w [Popen ["make"; "-v"]; Popen ["gmake"; "-v"]] (fs w)).
Proof.
  unfold Shared.gmake. rewrite bind_unfold, try_make_run.
  destruct (Spec.usable_make w "make"); [done|].
  rewrite bind_unfold, try_make_run.
  change (Spec.usable_make (Spec.after _ _ _) "gmake")
    with (Spec.usable_make w "gmake").
  destruct (Spec.usable_make w "gmake"); by norm_world.
Qed.

(** X2.  [__try_python] never raises: it runs the candidate once and
    answers [True] exactly when the candidate could be run and what it
    wrote on its error stream starts with [Python 2.6.] or [Python 2.7.]
    and a digit; whatever follows the digit is not looked at. *)
Theorem try_python_banner (w : world) (exe : string) :
  ∃ b,
    Shared.__try_python exe w = (Ret b, Spec.after w [Popen [exe; "-V"]] (fs w))
    ∧ (b = true ↔
       ∃ o minor d r,
         programs w [exe; "-V"] = Some o
         ∧ (minor = "6"%char ∨ minor = "7"%char) ∧ Str.is_digit d = true
         ∧ err_stream o = "Python 2." +:+ String minor (String "." (String d r))).
Proof.
  exists (Spec.usable_python w exe). split; [apply try_python_run|].
  unfold Spec.usable_python. destruct (programs w [exe; "-V"]) as [o|].
  - rewrite python_banner_inv. split.
    + intros (m & d & r & ? & ? & ?). by exists o, m, d, r.
    + intros (o' & m & d & r & [= <-] & ? & ? & ?). by exists m, d, r.
  - split; [done|]. by intros (? & ? & ? & ? & ? & _).
Qed.

(** X3.  [__try_make] never raises: it runs the candidate once and
    answers [True] exactly when the candidate could be run and its
    output starts with [GNU make] or [GNU Make]. *)
Theorem try_make_banner (w : world) (exe : string) :
  ∃ b,
    Shared.__try_make exe w = (Ret b, Spec.after w [Popen [exe; "-v"]] (fs w))
    ∧ (b = true ↔
       ∃ o m r,
         programs w [exe; "-v"] = Some o
         ∧ (m = "M"%char ∨ m = "m"%char)
         ∧ out_stream o = "GNU " +:+ String m ("ake" +:+ r)).
Proof.
  exists (Spec.usable_make w exe). split; [apply try_make_run|].
  unfold Spec.usable_make. destruct (programs w [exe; "-v"]) as [o|].
  - rewrite make_banner_inv. split.
    + intros (m & r & ? & ?). by exists o, m, r.
    + intros (o' & m & r & [= <-] & ? & ?). by exists m, r.
  - split; [done|]. by intros (? & ? & ? & ? & _).
Qed.

(** ** Reading the version of the runtime *)

Lemma runtime_items :
  Re.re_compile "v(\d+\.\d+\.\d+)" =
  Some [Re.One (Re.Lit "v"); Re.Open; Re.Plus Re.Digit; Re.One (Re.Lit ".");
        Re.Plus Re.Digit; Re.One (Re.Lit "."); Re.Plus Re.Digit; Re.Close].
Proof. reflexivity. Qed.

(** The greedy loop takes all the digits there are, when the rest of the
    pattern matches after them. *)
Lemma plus_loop_greedy (k : nat → string → option (list nat)) pos x r res :
  Spec.digits x →
  Spec.no_digit_ahead r = true →
  k (pos + String.length x) r = Some res →
  Re.plus_loop Re.Digit k pos (x +:+ r) = Some res.
Proof.
  intros [Hx Hd] Hr. revert pos. induction x as [|c x IH]; intros pos Hk; [done|].
  rewrite str_app_cons. cbn [Re.plus_loop Re.atom_ok].
  cbn in Hd. apply andb_true_iff in Hd as [Hc Hd]. rewrite Hc.
  destruct x as [|c' x].
  - rewrite str_app_empty_l. cbn in Hk. rewrite Nat.add_1_r in Hk.
    assert (Re.plus_loop Re.Digit k (S pos) r = None) as ->; [|done].
    destruct r as [|c' r]; [done|]. cbn in Hr |- *.
    apply negb_true_iff in Hr. by rewrite Hr.
  - rewrite IH; [done|done|done|].
    cbn [String.length] in Hk |- *. by rewrite <-Nat.add_succ_comm in Hk.
Qed.

Lemma substring_app_prefix (t r : string) :
  String.substring 0 (String.length t) (t +:+ r) = t.
Proof.
  induction t as [|c t IH]; [by destruct r|].
  rewrite str_app_cons. cbn. by rewrite IH.
Qed.

Lemma runtime_banner_match (a b c rest : string) :
  Spec.digits a → Spec.digits b → Spec.digits c →
  Spec.no_digit_ahead rest = true →
  Re.re_match "v(\d+\.\d+\.\d+)" ("v" +:+ a +:+ "." +:+ b +:+ "." +:+ c +:+ rest)
    ≫= (λ m, Re.group m 1)
  = Some (a +:+ "." +:+ b +:+ "." +:+ c).
Proof.
  intros Ha Hb Hc Hrest. unfold Re.re_match. rewrite runtime_items.
  cbn [mbind option_bind].
  set (s := "v" +:+ a +:+ "." +:+ b +:+ "." +:+ c +:+ rest).
  set (e := S (S (1 + String.length a) + String.length b) + String.length c).
  assert (Re.run
            [Re.One (Re.Lit "v"); Re.Open; Re.Plus Re.Digit; Re.One (Re.Lit ".");
             Re.Plus Re.Digit; Re.One (Re.Lit "."); Re.Plus Re.Digit; Re.Close]
            0 s = Some [1; e; e]) as ->.
  { subst s. rewrite str_app_cons, str_app_empty_l.
    cbn [Re.run Re.atom_ok]. rewrite bool_decide_eq_true_2 by done.
    cbn [fmap option_fmap option_map].
    erewrite (plus_loop_greedy _ 1 a); [reflexivity|done|done|].
    rewrite str_app_cons, str_app_empty_l.
    cbn [Re.run Re.atom_ok]. rewrite bool_decide_eq_true_2 by done.
    erewrite (plus_loop_greedy _ _ b); [reflexivity|done|done|].
    rewrite str_app_cons, str_app_empty_l.
    cbn [Re.run Re.atom_ok]. rewrite bool_decide_eq_true_2 by done.
    erewrite (plus_loop_greedy _ _ c); [reflexivity|done|done|].
    reflexivity. }
  unfold Re.group. cbn [Re.marks Re.subject mbind option_bind lookup].
  change ([1; e; e] !! (2 * (1 - 1))) with (Some 1).
  change ([1; e; e] !! (2 * (1 - 1) + 1)) with (Some e).
  cbn [mbind option_bind]. f_equal. unfold Str.slice. subst s.
  rewrite str_app_cons, str_app_empty_l.
  change (String.substring 1 (e - 1) (String "v" ?x))
    with (String.substring 0 (e - 1) x).
  assert (e - 1 = String.length (a +:+ "." +:+ b +:+ "." +:+ c)) as ->.
  { subst e. rewrite !str_length_app. cbn. lia. }
  rewrite <-(substring_app_prefix (a +:+ "." +:+ b +:+ "." +:+ c) rest) at 2.
  by rewrite !str_app_assoc.
Qed.

(** X4.  [current_version] gives back the version the runtime prints:
    when the output of [node -v] is [v], three groups of digits, and a
    rest that does not go on with a digit (a newline, or nothing), the
    result is the three groups as they stand. *)
Theorem current_version_reads_banner (w : world) (o : process_output)
    (t rest : string) :
  programs w ["node"; "-v"] = Some o →
  out_stream o = "v" +:+ t +:+ rest →
  Spec.three_groups t →
  Spec.no_digit_ahead rest = true →
  Shared.current_version w = (Ret t, Spec.after w [Popen ["node"; "-v"]] (fs w)).
Proof.
  intros Ho Hout (a & b & c & Ha & Hb & Hc & ->) Hrest.
  rewrite current_version_run, Ho, Hout, !str_app_assoc.
  by rewrite runtime_banner_match.
Qed.

Lemma current_version_reads_banner_witness :
  Shared.current_version Sample.w0
  = (Ret "5.10.2", Spec.after Sample.w0 [Popen ["node"; "-v"]] (fs Sample.w0)).
Proof.
  apply (current_version_reads_banner Sample.w0
           {| out_stream := "v5.10.2" +:+ Remove.nl; err_stream := "" |}
           "5.10.2" Remove.nl).
  - reflexivity.
  - reflexivity.
  - exists "5", "10", "2". by repeat split.
  - reflexivity.
Defined.

(** X5.  [current_version] has no default: when the runtime cannot be
    run it raises [OSError], and when its output does not start with
    [v] it raises [AttributeError]; in both cases the only thing done is
    the attempt to run it. *)
Theorem current_version_fails (w : world) :
  (programs w ["node"; "-v"] = None →
   Shared.current_version w
   = (Raise OSError, Spec.after w [Popen ["node"; "-v"]] (fs w)))
  ∧ (∀ o, programs w ["node"; "-v"] = Some o →
          Str.startswith "v" (out_stream o) = false →
          Shared.current_version w
          = (Raise AttributeError, Spec.after w [Popen ["node"; "-v"]] (fs w))).
Proof.
  split.
  - intros Ho. by rewrite current_version_run, Ho.
  - intros o Ho Hv. rewrite current_version_run, Ho.
    unfold Re.re_match. rewrite runtime_items. cbn [mbind option_bind].
    destruct (out_stream o) as [|c s]; [done|].
    cbn in Hv. cbn [Re.run Re.atom_ok]. by rewrite Hv.
Qed.

Lemma current_version_fails_witness :
  Shared.current_version Sample.no_runtime
  = (Raise OSError,
     Spec.after Sample.no_runtime [Popen ["node"; "-v"]] (fs Sample.no_runtime))
  ∧ Shared.current_version Sample.garbled_runtime
    = (Raise AttributeError,
       Spec.after Sample.garbled_runtime [Popen ["node"; "-v"]]
         (fs Sample.garbled_runtime)).
Proof.
  split.
  - apply (proj1 (current_version_fails Sample.no_runtime)). reflexivity.
  - apply (proj2 (current_version_fails Sample.garbled_runtime)
             {| out_stream := "node: bad option"; err_stream := "" |});
      reflexivity.
Defined.

(** ** [link_to]: every case *)

(** The last step of an activation, in a world where the Active Link is
    absent: the link is made when the prefix is a directory. *)
Lemma symlink_step_run w pfx v :
  Spec.prefix_is w pfx →
  FS.lstat (fs w) (Spec.active_link w pfx) = None →
  (vd ← Shared.get_version_dir v;
   b'' ← Shared.get_bin_dir;
   os_symlink (Path.join vd "bin") b'') w =
  if bool_decide (FS.lstat (fs w) (Path.resolve (cwd w) pfx) = Some Dir) then
    (Ret (),
     Spec.after w [Symlink (Spec.version_bin_dir pfx v) (Spec.bin_dir pfx)]
       (<[Spec.active_link w pfx := Link (Spec.version_bin_dir pfx v)]> (fs w)))
  else
    (Raise OSError,
     Spec.after w [Symlink (Spec.version_bin_dir pfx v) (Spec.bin_dir pfx)] (fs w)).
Proof.
  intros Hpfx Hnone.
  rewrite (bind_ret _ _ _ _ _ (run_get_version_dir w pfx Hpfx v)).
  rewrite (bind_ret _ _ _ _ _ (run_get_bin_dir w pfx Hpfx)).
  unfold os_symlink.
  change (FS.locate (log _ w) (Spec.bin_dir pfx)) with (FS.locate w (Spec.bin_dir pfx)).
  rewrite locate_bin_dir. cbn [fs log]. rewrite Hnone.
  rewrite active_link_eq at 1. rewrite parent_snoc.
  case_bool_decide as Hup.
  - rewrite Hup. by norm_world.
  - destruct (FS.lstat (fs w) (Path.resolve (cwd w) pfx)) as [[]|]; by norm_world.
Qed.

(** What [link_to] of a version does, by what is at the Active Link and
    at the prefix. *)
Lemma link_to_version_cases w pfx v :
  Spec.prefix_is w pfx →
  v ≠ "system" →
  Shared.link_to v w =
  let up := bool_decide (FS.lstat (fs w) (Path.resolve (cwd w) pfx) = Some Dir) in
  let i := Isdir (Spec.version_dir pfx v) in
  let l := Lexists (Spec.bin_dir pfx) in
  let u := Unlink (Spec.bin_dir pfx) in
  let s := Symlink (Spec.version_bin_dir pfx v) (Spec.bin_dir pfx) in
  let linked := <[Spec.active_link w pfx := Link (Spec.version_bin_dir pfx v)]> (fs w) in
  if negb (FS.isdir w (Spec.version_dir pfx v)) then
    (Raise (NoSuchVersionError "there is no such version installed"),
     Spec.after w [i] (fs w))
  else
    match FS.lstat (fs w) (Spec.active_link w pfx) with
    | Some Dir => (Raise OSError, Spec.after w [i; l; u] (fs w))
    | Some _ =>
        if up then (Ret (), Spec.after w [i; l; u; s] linked)
        else (Raise OSError,
              Spec.after w [i; l; u; s] (delete (Spec.active_link w pfx) (fs w)))
    | None =>
        if up then (Ret (), Spec.after w [i; l; s] linked)
        else (Raise OSError, Spec.after w [i; l; s] (fs w))
    end.
Proof.
  intros Hpfx Hv. cbv zeta. unfold Shared.link_to.
  rewrite bool_decide_eq_false_2 by done.
  rewrite bind_unfold, (run_version_exists w pfx Hpfx).
  destruct (FS.isdir w (Spec.version_dir pfx v)) eqn:Hdir; [|done]. cbn [negb].
  set (w1 := log _ w).
  assert (Spec.prefix_is w1 pfx) as Hpfx1 by by apply prefix_is_log.
  rewrite (bind_ret _ _ _ _ _ (run_get_bin_dir w1 pfx Hpfx1)).
  rewrite bind_unfold. unfold os_path_lexists.
  change (FS.lexists w1) with (FS.lexists w).
  set (w2 := log _ w1).
  assert (Spec.prefix_is w2 pfx) as Hpfx2 by by apply prefix_is_log.
  pose proof (active_link_nonroot w pfx) as Hne.
  pose proof (active_link_above w pfx) as Hab.
  rewrite lexists_bin_dir.
  destruct (FS.lstat (fs w) (Spec.active_link w pfx)) as [n|] eqn:Hl.
  - rewrite bool_decide_eq_true_2 by by eexists.
    rewrite bind_unfold.
    rewrite (bind_ret _ _ _ _ _ (run_get_bin_dir w2 pfx Hpfx2)).
    unfold os_unlink.
    change (FS.locate (log _ w2) (Spec.bin_dir pfx))
      with (FS.locate w (Spec.bin_dir pfx)).
    rewrite locate_bin_dir. cbn [fs log]. change (fs w2) with (fs w). rewrite Hl.
    destruct n as [| |t]; [|by subst w2 w1; norm_world|];
      (lazy beta iota;
       rewrite (symlink_step_run _ pfx v);
       [ cbn [fs set_fs cwd log]; change (cwd w2) with (cwd w);
         rewrite lstat_delete_ne by done;
         change (Spec.active_link _ pfx) with (Spec.active_link w pfx);
         rewrite insert_delete_eq; subst w2 w1;
         case_bool_decide; by norm_world
       | by apply prefix_is_set_fs, prefix_is_log
       | cbn [fs set_fs];
         change (Spec.active_link _ pfx) with (Spec.active_link w pfx);
         rewrite lstat_nonroot by done; apply lookup_delete_eq ]).
  - rewrite bool_decide_eq_false_2 by by intros [].
    rewrite bind_unfold. cbn [mret M_ret].
    rewrite (symlink_step_run w2 pfx v Hpfx2 Hl).
    change (fs w2) with (fs w). change (cwd w2) with (cwd w).
    change (Spec.active_link w2 pfx) with (Spec.active_link w pfx).
    subst w2 w1. case_bool_decide; by norm_world.
Qed.

Lemma link_to_result w pfx v :
  Spec.prefix_is w pfx →
  ∃ cs m,
    (Shared.link_to v w).2 = Spec.after w cs m
    ∧ ∀ k, k ≠ Spec.active_link w pfx → m !! k = fs w !! k.
Proof.
  intros Hpfx. destruct (decide (v = "system")) as [->|Hv].
  - rewrite (link_to_system_run w pfx Hpfx).
    destruct (FS.lstat _ _) as [[]|]; eexists _, _; (split; [reflexivity|]);
      intros k Hk; by rewrite ?lookup_delete_ne.
  - rewrite (link_to_version_cases w pfx v Hpfx Hv). cbv zeta.
    destruct (FS.isdir w _); cbn [negb]; [|by eexists _, _].
    destruct (FS.lstat _ _) as [[]|]; try case_bool_decide;
      eexists _, _; (split; [reflexivity|]); intros k Hk;
      by rewrite ?lookup_delete_ne, ?lookup_insert_ne.
Qed.

(** X6.  Whatever its argument and whether it returns or raises,
    [link_to] changes nothing in the file system but the entry
    [<prefix>/bin]. *)
Theorem link_to_touches_only_link (w : world) (pfx v : string) (k : path) :
  Spec.prefix_is w pfx →
  k ≠ Spec.active_link w pfx →
  fs (Shared.link_to v w).2 !! k = fs w !! k.
Proof.
  intros Hpfx Hk. destruct (link_to_result w pfx v Hpfx) as (cs & m & -> & Hm).
  by apply Hm.
Qed.

Lemma link_to_touches_only_link_witness :
  fs (Shared.link_to "4.2.0" Sample.w0).2 !! ["opt"; "nodevers"; "versions"; "5.10.2"]
  = fs Sample.w0 !! ["opt"; "nodevers"; "versions"; "5.10.2"].
Proof.
  apply (link_to_touches_only_link Sample.w0 "/opt/nodevers" "4.2.0").
  - reflexivity.
  - vm_compute; discriminate.
Defined.

Lemma layout_not_link w pfx :
  Forall (λ k, k ≠ [] ∧ k ≠ Spec.active_link w pfx)
    (Spec.layout (Path.resolve (cwd w) pfx)).
Proof.
  rewrite active_link_eq. unfold Spec.layout.
  repeat apply Forall_cons_2; try apply Forall_nil_2;
    (split; [by destruct (Path.resolve _ _)|]).
  - by intros [= ?]%(inj (app _)).
  - by intros [= ?]%(inj (app _)).
  - by intros [= ?]%(inj (app _)).
  - by intros [=]%(inj (app _)).
Qed.

(** X7.  Activation keeps the prefix valid: when the four directories of
    the layout are there, they are still there after [link_to], whatever
    its argument and its outcome, and [valid_nodevers_prefix] says so. *)
Theorem link_to_keeps_layout (w : world) (pfx v : string) :
  Spec.prefix_is w pfx →
  Spec.laid_out w pfx →
  Spec.laid_out (Shared.link_to v w).2 pfx
  ∧ (Shared.valid_nodevers_prefix pfx (Shared.link_to v w).2).1 = Ret true.
Proof.
  intros Hpfx Hlay.
  assert (Spec.laid_out (Shared.link_to v w).2 pfx) as Hlay'.
  { destruct (link_to_result w pfx v Hpfx) as (cs & m & -> & Hm).
    unfold Spec.laid_out in *. cbn [cwd fs Spec.after].
    pose proof (layout_not_link w pfx) as Hnl.
    rewrite Forall_forall in Hlay, Hnl |- *. intros k Hk.
    destruct (Hnl k Hk) as [Hroot Hlink].
    rewrite lstat_nonroot, Hm, <-lstat_nonroot by done. by apply Hlay. }
  split; [done|]. by apply valid_nodevers_prefix_layout.
Qed.

Lemma sample_laid_out : Spec.laid_out Sample.w0 "/opt/nodevers".
Proof. unfold Spec.laid_out. by repeat constructor. Defined.

Lemma link_to_keeps_layout_witness :
  Spec.laid_out (Shared.link_to "4.2.0" Sample.w0).2 "/opt/nodevers"
  ∧ (Shared.valid_nodevers_prefix "/opt/nodevers"
       (Shared.link_to "4.2.0" Sample.w0).2).1 = Ret true.
Proof.
  apply (link_to_keeps_layout Sample.w0 "/opt/nodevers" "4.2.0").
  - reflexivity.
  - exact sample_laid_out.
Defined.

(** X8.  When [<prefix>/bin] is a real directory [link_to] never
    succeeds and never changes the file system: [os.unlink] refuses a
    directory, so the call raises [OSError] ([NoSuchVersionError] for a
    version that is not installed). *)
Theorem link_to_refuses_directory (w : world) (pfx v : string) :
  Spec.prefix_is w pfx →
  FS.lstat (fs w) (Spec.active_link w pfx) = Some Dir →
  ∃ e, (Shared.link_to v w).1 = Raise e ∧ fs (Shared.link_to v w).2 = fs w.
Proof.
  intros Hpfx Hl. destruct (decide (v = "system")) as [->|Hv].
  - rewrite (link_to_system_run w pfx Hpfx), Hl. by eexists.
  - rewrite (link_to_version_cases w pfx v Hpfx Hv). cbv zeta. rewrite Hl.
    destruct (FS.isdir w _); by eexists.
Qed.

Lemma link_to_refuses_directory_witness :
  ∃ e, (Shared.link_to "system" Sample.bin_is_directory).1 = Raise e
       ∧ fs (Shared.link_to "system" Sample.bin_is_directory).2
         = fs Sample.bin_is_directory.
Proof.
  apply (link_to_refuses_directory Sample.bin_is_directory "/opt/nodevers" "system").
  - reflexivity.
  - reflexivity.
Defined.

(** X9.  Activating an installed version and then [link_to("system")]
    leaves no Active Link: the file system is the first one without the
    entry [<prefix>/bin], and is the first one itself when there was no
    Active Link to begin with. *)
Theorem link_to_then_system (w : world) (pfx v : string) :
  Spec.prefix_is w pfx →
  Spec.tree_shaped (fs w) →
  Shared.valid_version_string v = true →
  FS.isdir w (Spec.version_dir pfx v) = true →
  FS.lstat (fs w) (Spec.active_link w pfx) ≠ Some Dir →
  ∃ w',
    (Shared.link_to v;; Shared.link_to "system") w = (Ret (), w')
    ∧ fs w' = delete (Spec.active_link w pfx) (fs w)
    ∧ (FS.lstat (fs w) (Spec.active_link w pfx) = None → fs w' = fs w).
Proof.
  intros Hpfx Htree Hv Hd Hlink.
  pose proof (installed_prefix_dir w pfx v Htree
                (valid_version_string_plain _ Hv) Hd) as Hup.
  pose proof (active_link_nonroot w pfx) as Hne.
  rewrite bind_unfold.
  rewrite (link_to_version_run w pfx v Hpfx
             (valid_version_string_not_system _ Hv) Hd Hup Hlink).
  rewrite (link_to_system_run _ pfx (prefix_is_after _ _ _ _ Hpfx)).
  change (Spec.active_link (Spec.after _ _ _) pfx) with (Spec.active_link w pfx).
  rewrite fs_after, lstat_insert_eq by done.
  eexists. split; [reflexivity|]. rewrite fs_after, delete_insert_eq.
  split; [done|]. intros Hnone. apply delete_id.
  by rewrite lstat_nonroot in Hnone.
Qed.

Lemma link_to_then_system_witness :
  ∃ w',
    (Shared.link_to "4.2.0";; Shared.link_to "system") Sample.w0 = (Ret (), w')
    ∧ fs w' = delete (Spec.active_link Sample.w0 "/opt/nodevers") (fs Sample.w0)
    ∧ (FS.lstat (fs Sample.w0) (Spec.active_link Sample.w0 "/opt/nodevers") = None →
       fs w' = fs Sample.w0).
Proof.
  apply (link_to_then_system Sample.w0 "/opt/nodevers" "4.2.0").
  - reflexivity.
  - exact sample_tree_shaped.
  - reflexivity.
  - reflexivity.
  - vm_compute; discriminate.
Defined.

(** ** [remove]: what goes and what stays *)

Lemma prune_lookup_other (m : gmap path node) (k k' : path) :
  ¬ k `prefix_of` k' → FS.prune k m !! k' = m !! k'.
Proof.
  intros Hpre. unfold FS.prune. destruct (m !! k') as [n|] eqn:Hm.
  - by apply map_lookup_filter_Some.
  - apply map_lookup_filter_None. by left.
Qed.

Lemma stat_None (m : gmap path node) (k : path) :
  FS.lstat m k = None → FS.stat m k = None.
Proof. intros H. unfold FS.stat, FS.MAXSYMLINKS. cbn [FS.follow]. by rewrite H. Qed.

Lemma shutil_rmtree_result p w :
  ∃ m, shutil_rmtree p w = ((shutil_rmtree p w).1, Spec.after w [Rmtree p] m)
       ∧ (m = fs w
          ∨ ∃ k, FS.locate w p = Some k ∧ FS.lstat (fs w) k = Some Dir
                 ∧ (m = FS.prune k (fs w)
                    ∨ k ≠ [] ∧ m = <[k := Dir]> (FS.prune k (fs w)))).
Proof.
  unfold shutil_rmtree.
  change (FS.locate (log _ w) p) with (FS.locate w p). cbn [fs log].
  destruct (FS.locate w p) as [k|]; [|by eexists; split; [|left]].
  destruct (FS.lstat (fs w) k) as [[]|] eqn:Hl;
    try (by eexists; split; [|left]).
  case_bool_decide; [|destruct (Path.ends_in_dot p)];
    eexists; (split; [by norm_world|]); right; exists k; eauto.
Qed.

Lemma shutil_rmtree_ok p w w' :
  shutil_rmtree p w = (Ret (), w') →
  ∃ k, FS.locate w p = Some k ∧ k ≠ []
       ∧ w' = Spec.after w [Rmtree p] (FS.prune k (fs w)).
Proof.
  unfold shutil_rmtree.
  change (FS.locate (log _ w) p) with (FS.locate w p). cbn [fs log].
  destruct (FS.locate w p) as [k|]; [|done].
  destruct (FS.lstat (fs w) k) as [[]|]; try done.
  case_bool_decide; [done|]. destruct (Path.ends_in_dot p); [done|].
  intros [= <-]. exists k. by norm_world.
Qed.






(** The world in which [remove] deletes: the one the discovery and,
    for the active version, the switch have left. *)
Lemma remove_before_rmtree w pfx v :
  Spec.prefix_is w pfx →
  (∃ e cs m, Remove.remove v w = (Raise e, Spec.after w cs m)
             ∧ ∀ k, k ≠ Spec.active_link w pfx → m !! k = fs w !! k)
  ∨ ∃ cs m,
      Remove.remove v w = shutil_rmtree (Spec.version_dir pfx v) (Spec.after w cs m)
      ∧ ∀ k, k ≠ Spec.active_link w pfx → m !! k = fs w !! k.
Proof.
  intros Hpfx. unfold Remove.remove, Remove.version_current_version.
  rewrite bind_unfold, current_version_run.
  destruct (match programs w ["node"; "-v"] with
            | Some _ => _ | None => _ end) as [cur|e]; [|left; by eexists _, _, _].
  set (w1 := Spec.after w _ (fs w)).
  assert (Spec.prefix_is w1 pfx) as Hpfx1 by by apply prefix_is_after.
  rewrite bind_unfold. case_bool_decide.
  - unfold Remove.use_link_to.
    destruct (link_to_result w1 pfx "system" Hpfx1) as (cs & m & Hw2 & Hm).
    destruct (Shared.link_to "system" w1) as [[[]|e] w2]; cbn in Hw2; subst w2.
    + right. exists ([Popen ["node"; "-v"]] ++ cs), m.
      rewrite (bind_ret _ _ _ _ _
                 (run_get_version_dir _ pfx (prefix_is_after _ _ _ _ Hpfx1) v)).
      subst w1. by rewrite after_after.
    + left. exists e, ([Popen ["node"; "-v"]] ++ cs), m. subst w1.
      by rewrite after_after.
  - right. exists [Popen ["node"; "-v"]], (fs w). cbn [mret M_ret].
    by rewrite (bind_ret _ _ _ _ _ (run_get_version_dir w1 pfx Hpfx1 v)).
Qed.

(** X10.  After a [remove] that returned, the version is not installed
    any more: [version_exists] answers [False]. *)
Theorem remove_then_not_installed (w : world) (pfx v : string) (w' : world) :
  Spec.prefix_is w pfx →
  Remove.remove v w = (Ret (), w') →
  (Shared.version_exists v w').1 = Ret false.
Proof.
  intros Hpfx Hrm.
  destruct (remove_before_rmtree w pfx v Hpfx)
    as [(e & cs & m & He & _)|(cs & m & Heq & _)]; [congruence|].
  rewrite Heq in Hrm. apply shutil_rmtree_ok in Hrm as (k & Hk & Hroot & ->).
  rewrite (run_version_exists _ pfx) by by do 2 apply prefix_is_after.
  cbn [fst]. f_equal. unfold FS.isdir.
  change (FS.locate (Spec.after _ _ _) ?p) with (FS.locate w p) in Hk |- *.
  rewrite Hk. cbn [mbind option_bind]. rewrite !fs_after.
  rewrite stat_None; [done|].
  rewrite lstat_nonroot by done. apply prune_lookup_below. done.
Qed.

Lemma remove_then_not_installed_witness :
  (Shared.version_exists "5.10.2" (Remove.remove "5.10.2" Sample.w0).2).1
  = Ret false.
Proof.
  apply (remove_then_not_installed Sample.w0 "/opt/nodevers" "5.10.2").
  - reflexivity.
  - rewrite (surjective_pairing (Remove.remove _ _)) at 1. by f_equal.
Defined.

(** X11.  [remove] of a version string, whether it returns or raises,
    changes nothing in the file system outside the directory of that
    version and the entry [<prefix>/bin]: other versions, the patches
    and the layout stay as they were. *)
Theorem remove_touches_only_version (w : world) (pfx v : string) (k : path) :
  Spec.prefix_is w pfx →
  Shared.valid_version_string v = true →
  k ≠ Spec.active_link w pfx →
  ¬ (Path.resolve (cwd w) pfx ++ ["versions"; v]) `prefix_of` k →
  fs (Remove.remove v w).2 !! k = fs w !! k.
Proof.
  intros Hpfx Hv Hlink Hbelow.
  destruct (remove_before_rmtree w pfx v Hpfx)
    as [(e & cs & m & -> & Hm)|(cs & m & -> & Hm)]; [by apply Hm|].
  destruct (shutil_rmtree_result (Spec.version_dir pfx v) (Spec.after w cs m))
    as (m' & -> & Hm').
  cbn [snd]. rewrite fs_after.
  destruct Hm' as [->|(kv & Hkv & _ & Hm')]; [by apply Hm|].
  change (FS.locate (Spec.after _ _ _) ?p) with (FS.locate w p) in Hkv.
  rewrite locate_version_dir in Hkv by by apply valid_version_string_plain.
  injection Hkv as <-. rewrite fs_after in Hm'.
  destruct Hm' as [->|[_ ->]].
  - rewrite prune_lookup_other by done. by apply Hm.
  - rewrite lookup_insert_ne by (intros Heq; apply Hbelow; by rewrite Heq).
    rewrite prune_lookup_other by done. by apply Hm.
Qed.

Lemma remove_touches_only_version_witness :
  fs (Remove.remove "5.10.2" Sample.w0).2 !! ["opt"; "nodevers"; "versions"; "4.2.0"]
  = fs Sample.w0 !! ["opt"; "nodevers"; "versions"; "4.2.0"].
Proof.
  apply (remove_touches_only_version Sample.w0 "/opt/nodevers" "5.10.2").
  - reflexivity.
  - reflexivity.
  - vm_compute; discriminate.
  - vm_compute. intros [l Hl]. discriminate.
Defined.



(** ** The [remove] command: options and the empty argument *)

Lemma do_shorts_help (optstring : string) opts :
  Getopt.do_shorts optstring = inr opts →
  Forall (λ ov : string * string, ov.1 = "-h" ∨ ov.1 = "--help") opts.
Proof.
  revert opts. induction optstring as [|c s IH]; intros opts; cbn.
  { intros [= <-]. constructor. }
  case_bool_decide; [|done].
  destruct (Getopt.do_shorts s) as [msg|opts']; [done|].
  intros [= <-]. constructor; [by left|]. by apply IH.
Qed.

Lemma do_longs_help (opt : string) opts :
  Getopt.do_longs opt = inr opts →
  Forall (λ ov : string * string, ov.1 = "-h" ∨ ov.1 = "--help") opts.
Proof.
  unfold Getopt.do_longs. destruct (Getopt.cut_eq opt) as [o []];
    destruct (negb _); try done; intros [= <-]; repeat constructor; by right.
Qed.

Lemma getopt_help (args : list string) opts rest :
  Getopt.getopt args = inr (opts, rest) →
  Forall (λ ov : string * string, ov.1 = "-h" ∨ ov.1 = "--help") opts.
Proof.
  revert opts rest. induction args as [|a args IH]; intros opts rest; cbn.
  { intros [= <- _]. constructor. }
  destruct (_ && _); [|intros [= <- _]; constructor].
  case_bool_decide; [intros [= <- _]; constructor|].
  set (here := match a with
               | String _ (String "-" opt) => Getopt.do_longs opt
               | String _ optstring => Getopt.do_shorts optstring
               | EmptyString => inr []
               end).
  assert (∀ o, here = inr o →
            Forall (λ ov : string * string, ov.1 = "-h" ∨ ov.1 = "--help") o) as Hhere.
  { subst here. intros o. destruct a as [|c [|c' s]].
    - intros [= <-]. constructor.
    - apply do_shorts_help.
    - destruct (decide (c' = "-"%char)) as [->|Hc'].
      + apply do_longs_help.
      + assert (match c' with
                | "-"%char => Getopt.do_longs s
                | _ => Getopt.do_shorts (String c' s)
                end = Getopt.do_shorts (String c' s)) as ->.
        { destruct c' as [[] [] [] [] [] [] [] []]; try done. }
        apply do_shorts_help. }
  destruct here as [msg|o]; [done|].
  destruct (Getopt.getopt args) as [msg|[o' r']]; [done|].
  intros [= <- _]. apply Forall_app. split; [by apply Hhere|by eapply IH].
Qed.

Lemma parse_loop_help (o : string * string) (opts : list (string * string)) w :
  o.1 = "-h" ∨ o.1 = "--help" →
  Remove.parse_loop (o :: opts) w
  = (Raise (SystemExit 0), put_stdout Remove.__helpstr__ w).
Proof.
  intros Ho. destruct o as [option value]. cbn [Remove.parse_loop].
  rewrite bool_decide_eq_true_2 by (cbn in Ho; destruct Ho as [-> | ->]; set_solver).
  reflexivity.
Qed.

(** X13.  Options come first.  With no argument at all, or when the
    leading options are all recognised and there is at least one, the
    command prints the help text and exits with status 0; when an option
    is not recognised it writes the error on the error stream and exits
    with status -1.  In none of these cases is a version looked up or
    the file system touched. *)
Theorem parse_options (w : world) (args : list string) :
  (args = [] →
   Remove.parse args w = (Raise (SystemExit 0), put_stdout Remove.__helpstr__ w))
  ∧ (∀ o opts rest,
       Getopt.getopt args = inr (o :: opts, rest) →
       Remove.parse args w
       = (Raise (SystemExit 0), put_stdout Remove.__helpstr__ w))
  ∧ (∀ err,
       args ≠ [] → Getopt.getopt args = inl err →
       Remove.parse args w
       = (Raise (SystemExit (-1)),
          put_stderr ("Error: " +:+ err +:+ "." +:+ Remove.nl) w)).
Proof.
  split_and!.
  - by intros ->.
  - intros o opts rest Hg. destruct args as [|a args]; [done|].
    unfold Remove.parse. rewrite Hg.
    pose proof (getopt_help _ _ _ Hg) as Hall. apply Forall_cons in Hall as [Ho _].
    by rewrite bind_unfold, parse_loop_help.
  - intros err Hne Hg. destruct args as [|a args]; [done|].
    unfold Remove.parse. by rewrite Hg.
Qed.

Lemma parse_options_witness :
  Remove.parse ["-h"; "5.10.2"] Sample.w0
  = (Raise (SystemExit 0), put_stdout Remove.__helpstr__ Sample.w0)
  ∧ Remove.parse ["-x"] Sample.w0
    = (Raise (SystemExit (-1)),
       put_stderr ("Error: " +:+ "option -x not recognized" +:+ "." +:+ Remove.nl)
         Sample.w0).
Proof.
  split.
  - apply (proj1 (proj2 (parse_options Sample.w0 ["-h"; "5.10.2"]))
             ("-h", "") [] ["5.10.2"]).
    reflexivity.
  - apply (proj2 (proj2 (parse_options Sample.w0 ["-x"]))); [discriminate|].
    reflexivity.
Defined.







(** ** Initialising a prefix: when it succeeds *)

Section MkdirsSucceeds.

Implicit Types (m : gmap path node) (base : path) (names : list string).

(** [mkdirs] succeeds when the last directory is missing and nothing
    but directories lies on the way to it. *)
Lemma mkdirs_succeeds m base names :
  names ≠ [] →
  (∀ l, l ≠ [] → l `prefix_of` names → l ≠ names →
        FS.lstat m (base ++ l) = None ∨ FS.lstat m (base ++ l) = Some Dir) →
  FS.lstat m (base ++ names) = None →
  ∃ m', FS.mkdirs m base names = (true, m').
Proof.
  revert m base. induction names as [|n rest IH]; intros m base Hne Hway Hfree;
    [done|].
  destruct rest as [|n' rest].
  { cbn [FS.mkdirs]. rewrite Hfree. by eexists. }
  change (FS.mkdirs m base (n :: n' :: rest))
    with (match FS.lstat m (base ++ [n]) with
          | None => FS.mkdirs (<[base ++ [n] := Dir]> m) (base ++ [n]) (n' :: rest)
          | Some Dir => FS.mkdirs m (base ++ [n]) (n' :: rest)
          | Some _ => (false, m)
          end).
  assert (∀ l, (base ++ [n]) ++ l = base ++ n :: l) as Happ
    by (intros; by rewrite <-(assoc_L (++))).
  assert (∀ l, l ≠ [] → (base ++ [n]) ++ l ≠ base ++ [n]) as Hlonger.
  { intros l Hl H%(f_equal length). rewrite !length_app in H.
    destruct l; [done|]. cbn in H. lia. }
  destruct (Hway [n]) as [Hn|Hn]; [done|by exists (n' :: rest)|done|..];
    rewrite Hn.
  - apply IH; [done|..].
    + intros l Hl Hpre Hneq. rewrite lstat_insert_ne by (symmetry; by apply Hlonger).
      rewrite Happ. apply Hway; [done|by apply prefix_cons|congruence].
    + rewrite lstat_insert_ne by (symmetry; by apply Hlonger). by rewrite Happ.
  - apply IH; [done|..].
    + intros l Hl Hpre Hneq. rewrite Happ.
      apply Hway; [done|by apply prefix_cons|congruence].
    + by rewrite Happ.
Qed.

(** After a successful [mkdirs] every directory on the way is there. *)
Lemma mkdirs_ok_way m base names m' :
  FS.mkdirs m base names = (true, m') →
  ∀ l, l ≠ [] → l `prefix_of` names → FS.lstat m' (base ++ l) = Some Dir.
Proof.
  revert m base. induction names as [|n rest IH]; intros m base; [done|].
  assert (∀ l, (base ++ [n]) ++ l = base ++ n :: l) as Happ
    by (intros; by rewrite <-(assoc_L (++))).
  intros Hmk l Hl Hpre.
  destruct l as [|x l]; [done|].
  apply prefix_cons_inv_1 in Hpre as Hx. subst x.
  apply prefix_cons_inv_2 in Hpre.
  pose proof (mkdirs_ok _ _ _ _ Hmk) as (Hleaf & Hsub & _).
  destruct rest as [|n' rest].
  { apply prefix_nil_inv in Hpre as ->. exact Hleaf. }
  change (FS.mkdirs m base (n :: n' :: rest))
    with (match FS.lstat m (base ++ [n]) with
          | None => FS.mkdirs (<[base ++ [n] := Dir]> m) (base ++ [n]) (n' :: rest)
          | Some Dir => FS.mkdirs m (base ++ [n]) (n' :: rest)
          | Some _ => (false, m)
          end) in Hmk.
  destruct l as [|y l].
  - destruct (FS.lstat m (base ++ [n])) as [[]|] eqn:Hn; try done.
    + by eapply lstat_weaken.
    + pose proof (mkdirs_ok _ _ _ _ Hmk) as (_ & Hsub' & _).
      eapply lstat_weaken; [exact Hsub'|].
      apply lstat_insert_eq. by destruct base.
  - rewrite <-Happ.
    destruct (FS.lstat m (base ++ [n])) as [[]|] eqn:Hn; try done;
      by eapply IH.
Qed.

End MkdirsSucceeds.

Lemma os_makedirs_succeeds w p k :
  FS.locate w p = Some k →
  k ≠ [] →
  (∀ l, l ≠ [] → l `prefix_of` k → l ≠ k →
        FS.lstat (fs w) l = None ∨ FS.lstat (fs w) l = Some Dir) →
  FS.lstat (fs w) k = None →
  ∃ m',
    os_makedirs p w = (Ret (), Spec.after w [Makedirs p] m')
    ∧ fs w ⊆ m'
    ∧ (∀ l, l ≠ [] → l `prefix_of` k → FS.lstat m' l = Some Dir)
    ∧ ∀ k', is_Some (m' !! k') → is_Some (fs w !! k') ∨ k' `prefix_of` k.
Proof.
  intros Hk Hroot Hway Hfree.
  destruct (mkdirs_succeeds (fs w) [] k Hroot Hway Hfree) as [m' Hmk].
  exists m'. unfold os_makedirs.
  change (FS.locate (log _ w) p) with (FS.locate w p). rewrite Hk. cbn [fs log].
  rewrite Hmk. split; [by norm_world|].
  pose proof (mkdirs_ok _ _ _ _ Hmk) as (_ & Hsub & Hnew).
  split; [done|]. split; [by apply (mkdirs_ok_way _ _ _ _ Hmk)|].
  intros k' Hk'. destruct (Hnew k' Hk') as [?|(_ & _ & _ & ?)]; by auto.
Qed.

Lemma prefix_snoc_proper (l k : path) (x : string) :
  l `prefix_of` k ++ [x] → l ≠ k ++ [x] → l `prefix_of` k.
Proof.
  intros [s Hs] Hne. destruct (decide (s = [])) as [->|Hs'].
  { by rewrite (right_id_L [] (++)) in Hs. }
  destruct (exists_last Hs') as (s' & y & ->).
  rewrite (assoc_L (++)) in Hs. apply app_inj_tail in Hs as [-> _]. by exists s'.
Qed.

Lemma mknodevers_prefix_loop_succeeds w path :
  Path.resolve (cwd w) path ≠ [] →
  (∀ l, l ≠ [] → l `prefix_of` Path.resolve (cwd w) path →
        l ≠ Path.resolve (cwd w) path →
        FS.lstat (fs w) l = None ∨ FS.lstat (fs w) l = Some Dir) →
  (∀ k, Path.resolve (cwd w) path `prefix_of` k → fs w !! k = None) →
  ∃ w', Shared.mknodevers_prefix_loop path Shared.dirs w = (Ret (), w').
Proof.
  set (kp := Path.resolve (cwd w) path). intros Hroot Hway Hfree.
  assert (∀ x, kp ++ [x] ≠ []) as Hnr by (intros; by destruct kp).
  assert (∀ m l, l ≠ [] → FS.lstat m l = m !! l) as Hl
    by (intros; by apply lstat_nonroot).
  unfold Shared.dirs. cbn [Shared.mknodevers_prefix_loop]. rewrite bind_unfold.
  (* versions *)
  destruct (os_makedirs_succeeds w (Path.join path "versions") (kp ++ ["versions"]))
    as (m1 & -> & Hs1 & Hd1 & Hn1); [by apply locate_join|done|..].
  { intros l Hne Hpre Hneq. apply prefix_snoc_proper in Hpre; [|done].
    destruct (decide (l = kp)) as [->|Hlk]; [|by apply Hway].
    left. rewrite Hl by done. by apply Hfree. }
  { rewrite Hl by done. apply Hfree. by apply prefix_app_r. }
  set (w1 := Spec.after w _ m1). rewrite bind_unfold.
  (* tmp *)
  destruct (os_makedirs_succeeds w1 (Path.join path "tmp") (kp ++ ["tmp"]))
    as (m2 & -> & Hs2 & Hd2 & Hn2); [by apply (locate_join w)|done|..].
  { intros l Hne Hpre Hneq. apply prefix_snoc_proper in Hpre; [|done].
    right. apply Hd1; [done|]. by apply prefix_app_r. }
  { rewrite Hl by done. cbn [fs w1 Spec.after].
    destruct (m1 !! (kp ++ ["tmp"])) eqn:H1; [|done].
    destruct (Hn1 (kp ++ ["tmp"])) as [Hold|Hp]; [by eexists|..].
    - rewrite Hfree in Hold by by apply prefix_app_r. by destruct Hold.
    - apply prefix_app_inv in Hp as [s Hs]. discriminate. }
  set (w2 := Spec.after w1 _ m2). rewrite bind_unfold.
  cbn [fs w1 Spec.after] in Hs2, Hn2.
  (* patches *)
  destruct (os_makedirs_succeeds w2 (Path.join path "patches") (kp ++ ["patches"]))
    as (m3 & -> & Hs3 & Hd3 & Hn3); [by apply (locate_join w)|done|..].
  { intros l Hne Hpre Hneq. apply prefix_snoc_proper in Hpre; [|done].
    right. cbn [fs w2 Spec.after]. eapply lstat_weaken; [exact Hs2|].
    apply Hd1; [done|]. by apply prefix_app_r. }
  { rewrite Hl by done. cbn [fs w2 Spec.after].
    destruct (m2 !! (kp ++ ["patches"])) eqn:H2; [|done].
    destruct (Hn2 (kp ++ ["patches"])) as [Hold|Hp]; [by eexists|..].
    - destruct (Hn1 _ Hold) as [Hold'|Hp].
      + rewrite Hfree in Hold' by by apply prefix_app_r. by destruct Hold'.
      + apply prefix_app_inv in Hp as [s Hs]. discriminate.
    - apply prefix_app_inv in Hp as [s Hs]. discriminate. }
  set (w3 := Spec.after w2 _ m3). rewrite bind_unfold.
  cbn [fs w2 Spec.after] in Hs3, Hn3, Hd3.
  (* patches/global *)
  destruct (os_makedirs_succeeds w3 (Path.join path (Path.join "patches" "global"))
              (kp ++ ["patches"; "global"]))
    as (m4 & -> & Hs4 & Hd4 & Hn4);
    [exact (locate_patches_global w path)|by destruct kp|..].
  { intros l Hne Hpre Hneq. right. cbn [fs w3 Spec.after]. apply Hd3; [done|].
    change ["patches"; "global"] with (["patches"] ++ ["global"]) in Hpre, Hneq.
    rewrite (assoc_L (++)) in Hpre, Hneq. by apply prefix_snoc_proper in Hpre. }
  { assert (kp ++ ["patches"; "global"] ≠ []) by by destruct kp.
    rewrite Hl by done. cbn [fs w3 Spec.after].
    destruct (m3 !! (kp ++ ["patches"; "global"])) eqn:H3; [|done].
    destruct (Hn3 (kp ++ ["patches"; "global"])) as [Hold|Hp]; [by eexists|..].
    - destruct (Hn2 _ Hold) as [Hold'|Hp].
      + destruct (Hn1 _ Hold') as [Hold''|Hp].
        * rewrite Hfree in Hold'' by by apply prefix_app_r. by destruct Hold''.
        * apply prefix_app_inv in Hp as [s Hs]. discriminate.
      + apply prefix_app_inv in Hp as [s Hs]. discriminate.
    - apply prefix_app_inv in Hp as [s Hs]. discriminate. }
  by eexists.
Qed.

Lemma tree_shaped_ancestor (m : gmap path node) (l s : path) (n : node) :
  Spec.tree_shaped m → l ≠ [] → s ≠ [] →
  m !! (l ++ s) = Some n → m !! l = Some Dir.
Proof.
  intros Htree Hl. revert n. induction s as [|x s IH] using rev_ind; [done|].
  intros n _ Hn. apply Htree in Hn as [_ Hup].
  rewrite (assoc_L (++)), parent_snoc in Hup.
  destruct (decide (s = [])) as [->|Hs].
  - rewrite (right_id_L [] (++)) in Hup. by rewrite lstat_nonroot in Hup.
  - rewrite lstat_nonroot in Hup by by destruct l. by eapply IH.
Qed.

Lemma direct_ends_in_dot (p : string) :
  Spec.direct p = true → Path.ends_in_dot p = false.
Proof.
  unfold Spec.direct, Path.ends_in_dot, Path.last_name. intros H.
  destruct (last (filter _ _)) as [n|] eqn:Hl; [|done]. cbn [default id].
  apply last_Some_elem_of, list_elem_of_filter in Hl as [_ Hin].
  apply list_elem_of_In in Hin.
  apply (proj1 (forallb_forall _ _) H), andb_true_iff in Hin as [H1 H2].
  apply negb_true_iff in H1, H2. by rewrite H1, H2.
Qed.

(** X15.  Resetting an installation works: in a tree-shaped file system,
    [mknodevers_prefix] of a path that is written without [.] and [..]
    and names a real directory (not the root) returns: it has asked
    whether the path exists, removed the tree and made the four
    directories, and the prefix is valid afterwards. *)
Theorem mknodevers_prefix_resets (w : world) (path : string) :
  path ≠ "" →
  Spec.direct path = true →
  Spec.tree_shaped (fs w) →
  Path.resolve (cwd w) path ≠ [] →
  FS.lstat (fs w) (Path.resolve (cwd w) path) = Some Dir →
  ∃ w',
    Shared.mknodevers_prefix path w = (Ret (), w')
    ∧ calls w' =
        calls w ++ [Exists path; Rmtree path;
                    Makedirs (Path.join path "versions");
                    Makedirs (Path.join path "tmp");
                    Makedirs (Path.join path "patches");
                    Makedirs (Path.join path (Path.join "patches" "global"))]
    ∧ (Shared.valid_nodevers_prefix path w').1 = Ret true.
Proof.
  intros Hpath Hdirect Htree Hroot Hd. set (kp := Path.resolve (cwd w) path) in *.
  assert (FS.locate w path = Some kp) as Hloc.
  { unfold FS.locate. by rewrite bool_decide_eq_false_2. }
  unfold Shared.mknodevers_prefix. rewrite bind_unfold. unfold os_path_exists.
  assert (FS.exists_ w path = true) as ->.
  { unfold FS.exists_. rewrite Hloc. cbn [mbind option_bind].
    by rewrite (stat_real_dir _ _ Hd). }
  rewrite bind_unfold. unfold shutil_rmtree.
  change (FS.locate (log _ (log _ w)) path) with (FS.locate w path).
  rewrite Hloc. cbn [fs log]. rewrite Hd, bool_decide_eq_false_2 by done.
  rewrite (direct_ends_in_dot path Hdirect).
  set (w0 := set_fs _ _).
  destruct (mknodevers_prefix_loop_succeeds w0 path) as [w' Hw']; [done|..].
  - intros l Hl Hpre Hne. right.
    change (Path.resolve (cwd w0) path) with kp in Hpre, Hne.
    change (fs w0) with (FS.prune kp (fs w)).
    destruct Hpre as [s Hs].
    assert (s ≠ []) as Hs'.
    { intros ->. apply Hne. by rewrite Hs, (right_id_L [] (++)). }
    rewrite lstat_nonroot by done. rewrite prune_lookup_other.
    + rewrite lstat_nonroot in Hd by done. rewrite Hs in Hd.
      by eapply tree_shaped_ancestor.
    + rewrite Hs. intros [t Ht%(f_equal length)].
      rewrite !length_app in Ht. destruct s; [done|]. cbn in Ht. lia.
  - intros k Hk. change (fs w0) with (FS.prune kp (fs w)).
    by apply prune_lookup_below.
  - exists w'. split; [exact Hw'|].
    apply mknodevers_prefix_loop_ok in Hw' as (Hw & Hdirs & _). split.
    + rewrite Hw. subst w0. cbn. by rewrite <-!(assoc_L (++)).
    + apply valid_nodevers_prefix_layout.
      replace (cwd w') with (cwd w0) by by rewrite Hw. done.
Qed.

Lemma mknodevers_prefix_resets_witness :
  ∃ w',
    Shared.mknodevers_prefix "/opt/nodevers" Sample.w0 = (Ret (), w')
    ∧ calls w' =
        calls Sample.w0
        ++ [Exists "/opt/nodevers"; Rmtree "/opt/nodevers";
            Makedirs (Path.join "/opt/nodevers" "versions");
            Makedirs (Path.join "/opt/nodevers" "tmp");
            Makedirs (Path.join "/opt/nodevers" "patches");
            Makedirs (Path.join "/opt/nodevers" (Path.join "patches" "global"))]
    ∧ (Shared.valid_nodevers_prefix "/opt/nodevers" w').1 = Ret true.
Proof.
  apply (mknodevers_prefix_resets Sample.w0 "/opt/nodevers").
  - discriminate.
  - reflexivity.
  - exact sample_tree_shaped.
  - vm_compute; discriminate.
  - reflexivity.
Defined.

(** X16.  A fresh prefix: in a tree-shaped file system, when nothing is
    at the path and only directories (or nothing) lie on the way to it,
    [mknodevers_prefix] returns without calling [shutil.rmtree], keeps
    everything that was there, and the prefix is valid afterwards. *)
Theorem mknodevers_prefix_fresh (w : world) (path : string) :
  path ≠ "" →
  Spec.tree_shaped (fs w) →
  FS.lstat (fs w) (Path.resolve (cwd w) path) = None →
  (∀ l, l ≠ [] → l `prefix_of` Path.resolve (cwd w) path →
        FS.lstat (fs w) l = None ∨ FS.lstat (fs w) l = Some Dir) →
  ∃ w',
    Shared.mknodevers_prefix path w = (Ret (), w')
    ∧ calls w' =
        calls w ++ [Exists path; Makedirs (Path.join path "versions");
                    Makedirs (Path.join path "tmp");
                    Makedirs (Path.join path "patches");
                    Makedirs (Path.join path (Path.join "patches" "global"))]
    ∧ fs w ⊆ fs w'
    ∧ (Shared.valid_nodevers_prefix path w').1 = Ret true.
Proof.
  intros Hpath Htree Hnone Hway. set (kp := Path.resolve (cwd w) path) in *.
  assert (kp ≠ []) as Hroot by (intros H; by rewrite H in Hnone).
  assert (FS.locate w path = Some kp) as Hloc.
  { unfold FS.locate. by rewrite bool_decide_eq_false_2. }
  unfold Shared.mknodevers_prefix. rewrite bind_unfold. unfold os_path_exists.
  assert (FS.exists_ w path = false) as ->.
  { unfold FS.exists_. rewrite Hloc. cbn [mbind option_bind].
    by rewrite (stat_None _ _ Hnone). }
  rewrite bind_unfold. cbn [mret M_ret].
  destruct (mknodevers_prefix_loop_succeeds (log (Exists path) w) path)
    as [w' Hw']; [done|..].
  - intros l Hl Hpre _. by apply Hway.
  - intros k [s ->]. cbn [fs log]. destruct (decide (s = [])) as [->|Hs].
    + rewrite (right_id_L [] (++)). by rewrite lstat_nonroot in Hnone.
    + destruct (fs w !! (kp ++ s)) as [n|] eqn:Hn; [|done].
      apply tree_shaped_ancestor in Hn; [|done..].
      rewrite lstat_nonroot in Hnone by done. congruence.
  - exists w'. split; [exact Hw'|].
    apply mknodevers_prefix_loop_ok in Hw' as (Hw & Hdirs & Hsub & _).
    split_and!.
    + rewrite Hw. cbn. by rewrite <-(assoc_L (++)).
    + done.
    + apply valid_nodevers_prefix_layout.
      replace (cwd w') with (cwd w) by by rewrite Hw. done.
Qed.

Lemma mknodevers_prefix_fresh_witness :
  ∃ w',
    Shared.mknodevers_prefix "/srv/node" Sample.w0 = (Ret (), w')
    ∧ calls w' =
        calls Sample.w0
        ++ [Exists "/srv/node"; Makedirs (Path.join "/srv/node" "versions");
            Makedirs (Path.join "/srv/node" "tmp");
            Makedirs (Path.join "/srv/node" "patches");
            Makedirs (Path.join "/srv/node" (Path.join "patches" "global"))]
    ∧ fs Sample.w0 ⊆ fs w'
    ∧ (Shared.valid_nodevers_prefix "/srv/node" w').1 = Ret true.
Proof.
  apply (mknodevers_prefix_fresh Sample.w0 "/srv/node").
  - discriminate.
  - exact sample_tree_shaped.
  - reflexivity.
  - intros l Hl Hpre. left.
    change (Path.resolve (cwd Sample.w0) "/srv/node") with ["srv"; "node"] in Hpre.
    destruct Hpre as [s Hs]. destruct l as [|a [|b [|c l]]]; [done|..].
    + injection Hs as <- _. reflexivity.
    + injection Hs as <- <- _. reflexivity.
    + discriminate Hs.
Defined.

(** ** Checking a prefix *)

Lemma valid_nodevers_prefix_loop_run w path dirs :
  Shared.valid_nodevers_prefix_loop path dirs w =
  (Ret (forallb (λ d, FS.isdir w (Path.join path d)) dirs),
   Spec.after w (Spec.probes w path dirs) (fs w)).
Proof.
  revert w. induction dirs as [|d dirs IH]; intros w.
  { cbn. by rewrite after_nil. }
  cbn [Shared.valid_nodevers_prefix_loop forallb Spec.probes].
  rewrite bind_unfold. unfold os_path_isdir.
  destruct (FS.isdir w (Path.join path d)) eqn:Hd; cbn [negb andb].
  - rewrite IH, log_after, after_after, fs_after. cbn [app].
    assert (∀ ds, Spec.probes (Spec.after w [Isdir (Path.join path d)] (fs w)) path ds
                  = Spec.probes w path ds) as ->.
    { induction ds as [|x ds IHds]; [done|]. cbn [Spec.probes].
      change (FS.isdir (Spec.after w _ (fs w))) with (FS.isdir w). by rewrite IHds. }
    done.
  - by rewrite log_after.
Qed.

(** X17.  [valid_nodevers_prefix] answers [True] exactly when each of
    [versions], [tmp], [patches] and [patches/global] under the path is
    a directory.  It only looks: the calls it makes are [os.path.isdir],
    one for each directory up to the first that is missing, and the
    file system is left as it is. *)
Theorem valid_nodevers_prefix_checks (w : world) (path : string) :
  ∃ b,
    Shared.valid_nodevers_prefix path w =
      (Ret b, Spec.after w (Spec.probes w path Shared.dirs) (fs w))
    ∧ (b = true ↔
       ∀ d, d ∈ ["versions"; "tmp"; "patches"; "patches/global"] →
            FS.isdir w (Path.join path d) = true).
Proof.
  eexists. split; [apply valid_nodevers_prefix_loop_run|].
  rewrite forallb_forall.
  split; intros H d Hd; apply H; apply list_elem_of_In; exact Hd.
Qed.

(** ** Resolving a version *)

(** X18.  [get_real_version_dir] gives the directory of a version only
    when it is a directory, and [None] otherwise; it makes the one
    [os.path.isdir] call of [version_exists] and raises nothing. *)
Theorem get_real_version_dir_exists (w : world) (pfx v : string) :
  Spec.prefix_is w pfx →
  Shared.get_real_version_dir v w =
  (Ret (if FS.isdir w (Spec.version_dir pfx v)
        then Some (Spec.version_dir pfx v) else None),
   Spec.after w [Isdir (Spec.version_dir pfx v)] (fs w)).
Proof.
  intros Hpfx. unfold Shared.get_real_version_dir.
  rewrite bind_unfold, (run_version_exists w pfx Hpfx).
  destruct (FS.isdir w _); [|done].
  by rewrite (bind_ret _ _ _ _ _
                (run_get_version_dir _ pfx (prefix_is_log _ _ _ Hpfx) v)).
Qed.

Lemma get_real_version_dir_exists_witness :
  Shared.get_real_version_dir "9.9.9" Sample.w0 =
  (Ret (if FS.isdir Sample.w0 (Spec.version_dir "/opt/nodevers" "9.9.9")
        then Some (Spec.version_dir "/opt/nodevers" "9.9.9") else None),
   Spec.after Sample.w0 [Isdir (Spec.version_dir "/opt/nodevers" "9.9.9")]
     (fs Sample.w0)).
Proof.
  apply (get_real_version_dir_exists Sample.w0 "/opt/nodevers" "9.9.9").
  reflexivity.
Defined.

(** X19.  A version string that [valid_version_string] accepts names one
    entry right below [versions]: the directory of the version is the
    prefix, [versions] and the string itself as a single component, so
    it cannot lead out of [versions]. *)
Theorem valid_version_stays_below (w : world) (pfx v : string) :
  Shared.valid_version_string v = true →
  FS.locate w (Spec.version_dir pfx v)
  = Some (Path.resolve (cwd w) pfx ++ ["versions"; v]).
Proof. intros Hv. by apply locate_version_dir, valid_version_string_plain. Qed.

Lemma valid_version_stays_below_witness :
  FS.locate Sample.w0 (Spec.version_dir "/opt/nodevers" "5.10.2")
  = Some (Path.resolve (cwd Sample.w0) "/opt/nodevers" ++ ["versions"; "5.10.2"]).
Proof.
  apply (valid_version_stays_below Sample.w0 "/opt/nodevers" "5.10.2").
  reflexivity.
Defined.

(** X20.  The strings [valid_version_string] accepts are the strings
    made of three nonempty groups of digits separated by dots, and
    those followed by exactly one newline; every other string is
    rejected. *)
Theorem valid_version_string_language (s : string) :
  Shared.valid_version_string s = true ↔
  Spec.three_groups s ∨ ∃ t, Spec.three_groups t ∧ s = t +:+ Remove.nl.
Proof. apply valid_version_string_accepts. Qed.

(** ** The prefix and the environment *)

(** X24.  The prefix is read off the environment and nothing else: the
    override [NODEVERS_PREFIX] is returned as it is, whoever runs the
    command; without it root gets [/opt/nodevers] and another user
    [.nodevers] under [HOME]; and a user who has neither makes
    [get_nodevers_prefix] raise [AttributeError].  The world is never
    changed. *)
Theorem get_nodevers_prefix_order (w : world) :
  (∀ p, environ w !! "NODEVERS_PREFIX" = Some p →
        Shared.get_nodevers_prefix w = (Ret p, w))
  ∧ (environ w !! "NODEVERS_PREFIX" = None → euid w = 0 →
     Shared.get_nodevers_prefix w = (Ret "/opt/nodevers", w))
  ∧ (∀ h, environ w !! "NODEVERS_PREFIX" = None → euid w ≠ 0 →
          environ w !! "HOME" = Some h →
          Shared.get_nodevers_prefix w = (Ret (Path.join h ".nodevers"), w))
  ∧ (environ w !! "NODEVERS_PREFIX" = None → euid w ≠ 0 →
     environ w !! "HOME" = None →
     Shared.get_nodevers_prefix w = (Raise AttributeError, w)).
Proof.
  rewrite get_nodevers_prefix_unfold. split_and!.
  - by intros p ->.
  - intros -> Hu. by rewrite bool_decide_eq_true_2.
  - intros h -> Hu ->. by rewrite bool_decide_eq_false_2.
  - intros -> Hu ->. by rewrite bool_decide_eq_false_2.
Qed.

Lemma get_nodevers_prefix_order_witness :
  Shared.get_nodevers_prefix Sample.w0 = (Ret "/opt/nodevers", Sample.w0)
  ∧ Shared.get_nodevers_prefix Sample.homeless = (Raise AttributeError, Sample.homeless).
Proof.
  split.
  - apply (proj1 (proj2 (get_nodevers_prefix_order Sample.w0))); reflexivity.
  - apply (proj2 (proj2 (proj2 (get_nodevers_prefix_order Sample.homeless))));
      [reflexivity|discriminate|reflexivity].
Defined.

(** X21.  Without a prefix nothing is done: when [get_nodevers_prefix]
    raises, [version_exists], [link_to], [get_patches_list] and the
    [remove] command on a version raise the same exception before they
    make any call, and the world is as it was. *)
Theorem no_prefix_no_action (w : world) (e : exn) (v : string) (rest : list string) :
  Shared.get_nodevers_prefix w = (Raise e, w) →
  Shared.version_exists v w = (Raise e, w)
  ∧ Shared.link_to v w = (Raise e, w)
  ∧ Shared.get_patches_list v w = (Raise e, w)
  ∧ (Str.startswith "-" v = false → Remove.parse (v :: rest) w = (Raise e, w)).
Proof.
  intros He.
  assert (Shared.version_exists v w = (Raise e, w)) as Hex.
  { unfold Shared.version_exists, Shared.get_version_dir, Shared.get_versions_dir.
    by rewrite !bind_unfold, He. }
  split_and!.
  - done.
  - unfold Shared.link_to. case_bool_decide.
    + unfold Shared.get_bin_dir. by rewrite !bind_unfold, He.
    + by rewrite bind_unfold, Hex.
  - unfold Shared.get_patches_list, Shared.get_patches_dir.
    by rewrite !bind_unfold, He.
  - intros Hv. unfold Remove.parse. rewrite getopt_no_option by done.
    rewrite bind_unfold. cbn [Remove.parse_loop mret M_ret].
    by rewrite bind_unfold, Hex.
Qed.

Lemma no_prefix_no_action_witness :
  Shared.version_exists "5.10.2" Sample.homeless
  = (Raise AttributeError, Sample.homeless)
  ∧ Shared.link_to "5.10.2" Sample.homeless = (Raise AttributeError, Sample.homeless)
  ∧ Shared.get_patches_list "5.10.2" Sample.homeless
    = (Raise AttributeError, Sample.homeless)
  ∧ (Str.startswith "-" "5.10.2" = false →
     Remove.parse ["5.10.2"] Sample.homeless = (Raise AttributeError, Sample.homeless)).
Proof.
  apply (no_prefix_no_action Sample.homeless AttributeError "5.10.2" []).
  reflexivity.
Defined.

(** X22.  The global patch directory is not optional: when it is not a
    directory, [get_patches_list] raises [OSError] at its first call,
    the listing, whatever the version and its own patch directory. *)
Theorem get_patches_list_needs_global (w : world) (pfx v : string) :
  Spec.prefix_is w pfx →
  FS.isdir w (Spec.global_patch_dir pfx) = false →
  Shared.get_patches_list v w =
  (Raise OSError, Spec.after w [Listdir (Spec.global_patch_dir pfx)] (fs w)).
Proof. apply get_patches_list_no_global. Qed.

Lemma get_patches_list_needs_global_witness :
  Shared.get_patches_list "5.10.2" Sample.bare =
  (Raise OSError,
   Spec.after Sample.bare [Listdir (Spec.global_patch_dir "/opt/nodevers")]
     (fs Sample.bare)).
Proof.
  apply (get_patches_list_needs_global Sample.bare "/opt/nodevers" "5.10.2");
    reflexivity.
Defined.
